(** * Transcript assembly and archival of the chat widget

    A shallow embedding of [src/components/ConversationEnded.tsx]:
    [getTranscriptData], [getNames], [generateTranscript], [getMediaUrls]
    and [handleDownloadTranscript], with the properties the specification
    states about them.

    Conventions of the embedding.
    - A JavaScript object is a record of the properties and of the results
      of the nullary methods the component reads ([Date], [Media], ...).
    - A value of type [string | undefined] is an [option string]; a template
      literal renders it with [interpolate].
    - An expression that may throw returns a [Result]; the thrown value is
      kept as the text a template literal would render for it.
    - The handler runs in the monad [M] over a [World] that records the
      observable effects: the loading flag, [log.error], [new Blob] and
      [saveAs]. *)

From Stdlib Require Import String Ascii List Bool Arith Lia.
From Stdlib Require Import DecimalString.
Import ListNotations.
Open Scope string_scope.

(** ** Results of fallible expressions *)

Inductive Result (A : Type) : Type :=
| Ok (a : A)
| Throw (e : string).

Arguments Ok {A} a.
Arguments Throw {A} e.

Definition bindR {A B : Type} (r : Result A) (k : A -> Result B) : Result B :=
  match r with
  | Ok a => k a
  | Throw e => Throw e
  end.

Notation "'let?' x ':=' r 'in' k" := (bindR r (fun x => k))
  (at level 10, x name, r at level 100, k at level 200).

Definition succeeds {A : Type} (r : Result A) : bool :=
  match r with
  | Ok _ => true
  | Throw _ => false
  end.

(** ** JavaScript values *)

(** The line feed of the template literals. *)
Definition LF : string := String (ascii_of_nat 10) EmptyString.

(** [`${number}`] for a non-negative integer. *)
Definition string_of_nat (number : nat) : string :=
  NilEmpty.string_of_uint (Nat.to_uint number).

(** [`${name}`] for a [string | undefined]. *)
Definition interpolate (name : option string) : string :=
  match name with
  | Some s => s
  | None => "undefined"
  end.

(** [`${new Error(message)}`]: the name alone when the message is empty. *)
Definition errorToString (message : string) : string :=
  if String.eqb message "" then "Error" else "Error: " ++ message.

(** Strict equality [===] on [string | undefined]. *)
Definition strict_eqb (a b : option string) : bool :=
  match a, b with
  | Some x, Some y => String.eqb x y
  | None, None => true
  | _, _ => false
  end.

(** The members of [Date] the component calls. *)
Module Date.
Record t : Type := mk {
  getHours : nat;
  getMinutes : nat;
  (** [toLocaleString("default", { dateStyle: "long" })] *)
  toLocaleString_long : string;
  toDateString : string
}.
End Date.

(** [Media] of the conversations SDK: the resolution of the temporary URL
    either yields the URL or is rejected. *)
Module Media.
Record t : Type := mk {
  filename : string;
  contentType : string;
  size : nat;
  getContentTemporaryUrl : Result string
}.
End Media.

Module Message.
Record t : Type := mk {
  author : string;
  body : string;
  dateCreated : Date.t;
  attachedMedia : option (list Media.t)
}.
End Message.

Module User.
Record t : Type := mk {
  identity : string;
  friendlyName : string
}.
End User.

(** [interface Transcript] *)
Module Transcript.
Record t : Type := mk {
  author : option string;
  body : string;
  timeStamp : Date.t;
  attachedMedia : option (list Media.t)
}.
End Transcript.

(** ** getTranscriptData *)

(** [users.find((user) => user.identity === message.author)] *)
Definition currentUser (users : list User.t) (message : Message.t) : option User.t :=
  find (fun user => String.eqb (User.identity user) (Message.author message)) users.

(** The object pushed for one message. *)
Definition transcriptOf (users : list User.t) (message : Message.t) : Transcript.t :=
  {| Transcript.author :=
       if String.eqb (Message.author message) "Concierge"
       then Some (Message.author message)
       else option_map User.friendlyName (currentUser users message);
     Transcript.body := Message.body message;
     Transcript.timeStamp := Message.dateCreated message;
     Transcript.attachedMedia := Message.attachedMedia message |}.

(** [undefined] is the only falsy value of [Message[] | undefined]: an empty
    array passes the guard [messages && users]. *)
Definition getTranscriptData (messages : option (list Message.t))
    (users : option (list User.t)) : list Transcript.t :=
  match messages, users with
  | Some messages, Some users =>
      fold_left
        (fun transcriptData message =>
           (transcriptData ++ [transcriptOf users message])%list)
        messages []
  | _, _ => []
  end.

(** ** getNames *)

Record Names : Type := mkNames {
  customerName : option string;
  agentNames : list (option string)
}.

(** [transcriptData[0]], whose member is then read: reading a member of
    [undefined] throws. *)
Definition first (member : string) (transcriptData : list Transcript.t)
    : Result Transcript.t :=
  match transcriptData with
  | message :: _ => Ok message
  | [] => Throw ("TypeError: Cannot read properties of undefined (reading '"
                 ++ member ++ "')")
  end.

Definition isAgent (customerName name : option string) : bool :=
  negb (strict_eqb name customerName) && negb (strict_eqb name (Some "Concierge")).

Definition getNames (transcriptData : list Transcript.t) : Result Names :=
  let names := map Transcript.author transcriptData in
  let? message := first "author" transcriptData in
  let customerName := Transcript.author message in
  let agentNames := filter (isAgent customerName) names in
  Ok {| customerName := customerName; agentNames := agentNames |}.

(** [agentNames.forEach((name) => (s = s.concat(` and ${name}`)))], guarded by
    [agentNames.length > 0]. *)
Definition andNames (s : string) (agentNames : list (option string)) : string :=
  if (0 <? length agentNames)%nat
  then fold_left (fun s name => s ++ " and " ++ interpolate name) agentNames s
  else s.

Definition conversationTitle (names : Names) : string :=
  andNames ("Conversation with " ++ interpolate (customerName names)) (agentNames names).

(** The title alone, as [generateTranscript] builds it. *)
Definition title (transcriptData : list Transcript.t) : Result string :=
  let? names := getNames transcriptData in
  Ok (conversationTitle names).

(** ** generateTranscript *)

Definition doubleDigit (number : nat) : string :=
  (if (number <? 10)%nat then "0" else "") ++ string_of_nat number.

(** [message.attachedMedia[0].filename]: element 0 of an empty array is
    [undefined], and reading its member throws. *)
Definition firstFilename (attachedMedia : list Media.t) : Result string :=
  match attachedMedia with
  | media :: _ => Ok (Media.filename media)
  | [] => Throw "TypeError: Cannot read properties of undefined (reading 'filename')"
  end.

(** The text of one message. An array is truthy whatever its length, so the
    branch of [if (message.attachedMedia)] is taken for every array. *)
Definition messageText (customerName : option string) (message : Transcript.t)
    : Result string :=
  let bulletPoint :=
    if strict_eqb (Transcript.author message) customerName then "*" else "+" in
  let messageText :=
    bulletPoint ++ " " ++ doubleDigit (Date.getHours (Transcript.timeStamp message))
      ++ ":" ++ doubleDigit (Date.getMinutes (Transcript.timeStamp message))
      ++ "  " ++ interpolate (Transcript.author message)
      ++ ": " ++ Transcript.body message in
  match Transcript.attachedMedia message with
  | Some attachedMedia =>
      let? filename := firstFilename attachedMedia in
      Ok (messageText ++ " (** Attached file " ++ filename ++ " **)")
  | None => Ok messageText
  end.

(** The loop [for (const message of transcriptData)] from the transcript
    built so far. *)
Fixpoint appendMessages (customerName : option string) (transcript : string)
    (transcriptData : list Transcript.t) : Result string :=
  match transcriptData with
  | [] => Ok transcript
  | message :: rest =>
      let? messageText := messageText customerName message in
      appendMessages customerName (transcript ++ messageText ++ LF ++ LF) rest
  end.

(** ** Blobs, the archive and the observable effects *)

Inductive Blob : Type :=
| NewBlob (blobParts : list string) (type : string)   (* [new Blob(parts, { type })] *)
| Content (bytes : string).                          (* a blob produced outside *)

(** The object built in [getMediaUrls] to stand for a [File]. *)
Module File.
Record t : Type := mk {
  name : string;
  type : string;
  size : nat
}.
End File.

(** An element of [mediaURLs]. *)
Module MediaURL.
Record t : Type := mk {
  url : string;
  filename : string
}.
End MediaURL.

(** The response of [fetch], as far as the handler reads it. The promise
    of [response.blob()] is kept as the outcome it settles with. *)
Module Response.
Record t : Type := mk {
  status : nat;
  statusText : string;
  blob : Result Blob
}.
End Response.

(** The folder of the JSZip instance: its name and its files, keyed by
    name, in the order in which the names were first added. The data of a
    file is a blob or a promise of one, kept as the outcome the promise
    settles with. *)
Module Folder.
Record t : Type := mk {
  name : string;
  files : list (string * Result Blob)
}.

(** The files after [file(name, data)]: the file is added, or it replaces
    the file that has this name. *)
Fixpoint put (name : string) (data : Result Blob)
    (files : list (string * Result Blob)) : list (string * Result Blob) :=
  match files with
  | [] => [(name, data)]
  | (n, d) :: rest =>
      if String.eqb n name then (name, data) :: rest else (n, d) :: put name data rest
  end.

(** [folder.file(name, data)] *)
Definition file (name : string) (data : Result Blob) (folder : t) : t :=
  {| Folder.name := Folder.name folder;
     files := put name data (files folder) |}.

(** [folder.file(name)]: the data of the file of this name, if there is one. *)
Definition get (name : string) (folder : t) : option (Result Blob) :=
  option_map snd (find (fun entry => String.eqb (fst entry) name) (files folder)).
End Folder.

Record World : Type := mkWorld {
  downloadingTranscript : bool;           (* the state of [useState] *)
  logged : list string;                   (* the calls of [log.error] *)
  blobs : list Blob;                      (* the blobs made with [new Blob] *)
  saved : list (Blob * string)            (* the calls of [saveAs] *)
}.

(** A computation with effects: it ends with a value or a thrown error, in
    the world it has reached. *)
Definition M (A : Type) : Type := World -> Result A * World.

Definition ret {A : Type} (a : A) : M A := fun w => (Ok a, w).

Definition bind {A B : Type} (m : M A) (k : A -> M B) : M B :=
  fun w =>
    match m w with
    | (Ok a, w') => k a w'
    | (Throw e, w') => (Throw e, w')
    end.

Notation "x <- m ;; k" := (bind m (fun x => k))
  (at level 61, m at next level, right associativity).
Notation "m ;;; k" := (bind m (fun _ => k))
  (at level 61, right associativity).

Definition lift {A : Type} (r : Result A) : M A := fun w => (r, w).

(** [try { body } catch (e) { handler }] *)
Definition try_catch {A : Type} (body : M A) (handler : string -> M A) : M A :=
  fun w =>
    match body w with
    | (Ok a, w') => (Ok a, w')
    | (Throw e, w') => handler e w'
    end.

(** A [for ... of] loop that threads the value built so far. *)
Fixpoint for_of {A B : Type} (l : list B) (body : A -> B -> M A) (a : A) : M A :=
  match l with
  | [] => ret a
  | x :: rest => a' <- body a x ;; for_of rest body a'
  end.

Definition setdownloadingTranscript (b : bool) : M unit :=
  fun w =>
    (Ok tt, {| downloadingTranscript := b; logged := logged w;
               blobs := blobs w; saved := saved w |}).

Definition log_error (message : string) : M unit :=
  fun w =>
    (Ok tt, {| downloadingTranscript := downloadingTranscript w;
               logged := (logged w ++ [message])%list;
               blobs := blobs w; saved := saved w |}).

Definition new_Blob (blobParts : list string) (type : string) : M Blob :=
  fun w =>
    (Ok (NewBlob blobParts type),
     {| downloadingTranscript := downloadingTranscript w; logged := logged w;
        blobs := (blobs w ++ [NewBlob blobParts type])%list; saved := saved w |}).

Definition saveAs (blob : Blob) (name : string) : M unit :=
  fun w =>
    (Ok tt, {| downloadingTranscript := downloadingTranscript w; logged := logged w;
               blobs := blobs w; saved := (saved w ++ [(blob, name)])%list |}).

(** [value || []] *)
Definition or_empty {A : Type} (value : option (list A)) : list A :=
  match value with
  | Some l => l
  | None => []
  end.

(** Truthiness of a [T | null | undefined] whose [T] is an object or an
    array: only the absent value is falsy. *)
Definition truthy {A : Type} (value : option A) : bool :=
  match value with
  | Some _ => true
  | None => false
  end.

(** [media.member] for a value that may be absent. *)
Definition member {A : Type} (name : string) (get : Media.t -> A)
    (media : option Media.t) : Result A :=
  match media with
  | Some m => Ok (get m)
  | None => Throw ("TypeError: Cannot read properties of undefined (reading '"
                   ++ name ++ "')")
  end.

(** ** Notions used to state the properties *)

(** The strings of a list, one after the other. *)
Definition joined (l : list string) : string := fold_right append "" l.

(** Every media value [getMediaUrls] iterates, in the order of the loops. *)
Definition allMedia (messages : option (list Message.t)) : list Media.t :=
  flat_map (fun message => or_empty (Message.attachedMedia message)) (or_empty messages).

(** The media items whose temporary URL was resolved, with that URL. *)
Definition resolved (media : list Media.t) : list MediaURL.t :=
  flat_map
    (fun m =>
       match Media.getContentTemporaryUrl m with
       | Ok url => [ {| MediaURL.url := url; MediaURL.filename := Media.filename m |} ]
       | Throw _ => []
       end)
    media.

(** What is logged for the media items whose resolution was rejected. *)
Definition failures (media : list Media.t) : list string :=
  flat_map
    (fun m =>
       match Media.getContentTemporaryUrl m with
       | Ok _ => []
       | Throw e => [ "Failed downloading message attachment: " ++ e ]
       end)
    media.

(** The world after further calls of [log.error]. *)
Definition withLogged (messages : list string) (w : World) : World :=
  {| downloadingTranscript := downloadingTranscript w;
     logged := (logged w ++ messages)%list;
     blobs := blobs w; saved := saved w |}.

(** The world in which the promise chain of the archive settles, or in
    which the text is saved: the flag is reset, the rejected resolutions are
    logged and the blob of the transcript exists. *)
Definition rendered (transcript : string) (messages : option (list Message.t))
    (w : World) : World :=
  {| downloadingTranscript := false;
     logged := (logged w ++ failures (allMedia messages))%list;
     blobs := (blobs w ++ [NewBlob [transcript] "text/plain"])%list;
     saved := saved w |}.

(** The error of reading [filename] of element 0 of an empty array. *)
Definition noFilename : string :=
  "TypeError: Cannot read properties of undefined (reading 'filename')".

(** The title in the words of the specification: one [" and {agent}"] per
    distinct agent name that is present, in the order first met. *)
Fixpoint firstSeen (seen : list string) (names : list (option string)) : list string :=
  match names with
  | [] => []
  | None :: rest => firstSeen seen rest
  | Some name :: rest =>
      if existsb (String.eqb name) seen
      then firstSeen seen rest
      else name :: firstSeen (name :: seen) rest
  end.

Definition titlePerDistinctAgent (transcriptData : list Transcript.t) : string :=
  match transcriptData with
  | [] => ""
  | message :: _ =>
      let customer := Transcript.author message in
      "Conversation with " ++ interpolate customer
        ++ joined
             (map (fun agent => " and " ++ agent)
                (firstSeen []
                   (filter (isAgent customer) (map Transcript.author transcriptData))))
  end.

(** ** Sample data *)

Definition newYear : Date.t :=
  {| Date.getHours := 9; Date.getMinutes := 5;
     Date.toLocaleString_long := "January 1, 2024";
     Date.toDateString := "Mon Jan 01 2024" |}.

Definition a_png : Media.t :=
  {| Media.filename := "a.png"; Media.contentType := "image/png"; Media.size := 10;
     Media.getContentTemporaryUrl := Ok "https://media/a" |}.
Definition b_png : Media.t :=
  {| Media.filename := "b.png"; Media.contentType := "image/png"; Media.size := 20;
     Media.getContentTemporaryUrl := Throw "Error: 403" |}.

Definition entry (a : string) : Transcript.t :=
  {| Transcript.author := Some a; Transcript.body := "hi";
     Transcript.timeStamp := newYear; Transcript.attachedMedia := None |}.

(** An entry with the files [a.png] and [b.png], and one whose array of
    files is present and empty. *)
Definition withTwoFiles : Transcript.t :=
  {| Transcript.author := Some "Alice"; Transcript.body := "see";
     Transcript.timeStamp := newYear; Transcript.attachedMedia := Some [a_png; b_png] |}.
Definition withNoFile : Transcript.t :=
  {| Transcript.author := Some "Bob"; Transcript.body := "see";
     Transcript.timeStamp := newYear; Transcript.attachedMedia := Some [] |}.

Definition aliceBobAlice : list Transcript.t := [entry "Alice"; entry "Bob"; entry "Alice"].
Definition aliceBobBob : list Transcript.t := [entry "Alice"; entry "Bob"; entry "Bob"].

Definition alice : User.t := {| User.identity := "u1"; User.friendlyName := "Alice" |}.

Definition says (identity body : string) (attachedMedia : option (list Media.t))
    : Message.t :=
  {| Message.author := identity; Message.body := body;
     Message.dateCreated := newYear; Message.attachedMedia := attachedMedia |}.

Definition hello : Message.t := says "u1" "hello" None.
Definition twoFiles : Message.t := says "u1" "see" (Some [a_png; b_png]).
Definition lostFile : Message.t := says "u1" "see" (Some [b_png]).

(** A message of the bot, a participant that has the bot's identity, a
    message of somebody who is no participant, and a second participant under
    the identity of [alice]. *)
Definition welcome : Message.t := says "Concierge" "welcome" None.
Definition botUser : User.t :=
  {| User.identity := "Concierge"; User.friendlyName := "Bot" |}.
Definition stranger : Message.t := says "u9" "hi" None.
Definition alicia : User.t := {| User.identity := "u1"; User.friendlyName := "Alicia" |}.

(** An entry whose author is absent. *)
Definition nobody : Transcript.t :=
  {| Transcript.author := None; Transcript.body := "hi";
     Transcript.timeStamp := newYear; Transcript.attachedMedia := None |}.
Definition aliceNobody : list Transcript.t := [entry "Alice"; nobody].


(** Stand-ins for the packages and the host. *)
Definition aMinute : list Transcript.t -> string := fun _ => "1 minute".
Definition dashes : string -> string := fun s => s.
Definition lower : string -> string := fun s => s.
Definition objectURL : File.t -> string := fun file => "blob:" ++ File.name file.
Definition fetched : string -> Result Response.t :=
  fun url => Ok {| Response.status := 200; Response.statusText := "OK";
                   Response.blob := Ok (Content url) |}.
Definition zipped : Folder.t -> Result Blob := fun folder => Ok (Content (Folder.name folder)).
Definition zipBroken : Folder.t -> Result Blob := fun _ => Throw "Error: out of memory".


(** The name of the download for a chat of Alice on the sample date, as
    the stand-ins leave it. *)
Definition sampleName : string := "chat with Alice-Mon Jan 01 2024".

Definition idle : World :=
  {| downloadingTranscript := false; logged := []; blobs := []; saved := [] |}.

Section Pipeline.

(** [../utils/generateDuration], which is not part of the component. *)
Variable generateDuration : list Transcript.t -> string.

(** The packages and the host the component calls. *)
Variable slugify : string -> string.
Variable toLowerCase : string -> string.
Variable createObjectURL : File.t -> string.
Variable fetch : string -> Result Response.t.
Variable generateAsync : Folder.t -> Result Blob.

Definition generateTranscript (transcriptData : list Transcript.t) : Result string :=
  let? names := getNames transcriptData in
  let? message := first "timeStamp" transcriptData in
  let conversationStartDate := Date.toLocaleString_long (Transcript.timeStamp message) in
  let duration := generateDuration transcriptData in
  let conversationTitle := conversationTitle names in
  let transcript :=
    conversationTitle ++ LF ++ LF ++ "Date: " ++ conversationStartDate ++ LF
      ++ "Duration: " ++ duration ++ LF ++ LF in
  appendMessages (customerName names) transcript transcriptData.

(** The body of the [try] block for one value of the inner loop. The
    object [file] is built first, from three members of [media]. *)
Definition mediaURLOf (media : option Media.t) : Result MediaURL.t :=
  let? name := member "filename" Media.filename media in
  let? type := member "contentType" Media.contentType media in
  let? size := member "size" Media.size media in
  let file := {| File.name := name; File.type := type; File.size := size |} in
  let? url :=
    match media with
    | Some m => Media.getContentTemporaryUrl m
    | None => Ok (createObjectURL file)
    end in
  let? filename := member "filename" Media.filename media in
  Ok {| MediaURL.url := url; MediaURL.filename := filename |}.

Definition pushMediaURL (mediaURLs : list MediaURL.t) (media : option Media.t)
    : M (list MediaURL.t) :=
  try_catch
    (mediaURL <- lift (mediaURLOf media) ;;
     ret (mediaURLs ++ [mediaURL])%list)
    (fun e =>
       log_error ("Failed downloading message attachment: " ++ e) ;;;
       ret mediaURLs).

Definition getMediaUrls (messages : option (list Message.t)) : M (list MediaURL.t) :=
  let mediaMessages :=
    option_map (filter (fun message => truthy (Message.attachedMedia message)))
      messages in
  for_of (or_empty mediaMessages)
    (fun mediaURLs message =>
       for_of (or_empty (Message.attachedMedia message))
         (fun mediaURLs media => pushMediaURL mediaURLs (Some media))
         mediaURLs)
    [].

(** The promise made for one media URL: it adopts the promise of
    [response.blob()] for the status 200, and is rejected with
    [new Error(response.statusText)] otherwise. *)
Definition blobPromise (mediaURL : MediaURL.t) : Result Blob :=
  let? response := fetch (MediaURL.url mediaURL) in
  if (Response.status response =? 200)%nat
  then Response.blob response
  else Throw (errorToString (Response.statusText response)).

(** [zip.folder(fileName)] with the transcript and one file per media URL. *)
Definition archive (fileName : string) (transcriptBlob : Blob)
    (mediaURLs : list MediaURL.t) : Folder.t :=
  let folder := {| Folder.name := fileName; Folder.files := [] |} in
  let folder := Folder.file (fileName ++ ".txt") (Ok transcriptBlob) folder in
  fold_left
    (fun folder mediaURL =>
       Folder.file (MediaURL.filename mediaURL) (blobPromise mediaURL) folder)
    mediaURLs folder.

(** [zip.generateAsync(...).then(saveAs).catch(log.error)] once settled. *)
Definition zipAndSave (fileName : string) (folder : Folder.t) : M unit :=
  match generateAsync folder with
  | Ok blob => saveAs blob (fileName ++ ".zip")
  | Throw e => log_error ("Failed zipping message attachments: " ++ e)
  end.

(** The name of the download, without its extension. *)
Definition fileNameFor (transcriptData : list Transcript.t) : Result string :=
  let? names := getNames transcriptData in
  let fileName :=
    andNames ("chat with " ++ interpolate (customerName names)) (agentNames names) in
  let? message := first "timeStamp" transcriptData in
  let fileName := fileName ++ "-" ++ Date.toDateString (Transcript.timeStamp message) in
  Ok (toLowerCase (slugify fileName)).

(** The promise chain of the archive is not awaited: it settles after the
    handler has reset the flag, so the model runs it last. *)
Definition handleDownloadTranscript (messages : option (list Message.t))
    (users : option (list User.t)) : M unit :=
  setdownloadingTranscript true ;;;
  let transcriptData := getTranscriptData messages users in
  transcript <- lift (generateTranscript transcriptData) ;;
  transcriptBlob <- new_Blob [transcript] "text/plain" ;;
  mediaURLs <- getMediaUrls messages ;;
  fileName <- lift (fileNameFor transcriptData) ;;
  pending <-
    (if (0 <? length mediaURLs)%nat
     then ret (Some (archive fileName transcriptBlob mediaURLs))
     else saveAs transcriptBlob (fileName ++ ".txt") ;;; ret None) ;;
  setdownloadingTranscript false ;;;
  match pending with
  | Some folder => zipAndSave fileName folder
  | None => ret tt
  end.


(** * Properties *)

(** ** Strings and loops *)

Lemma append_nil_r (s : string) : s ++ "" = s.
Proof. induction s as [| c s IH]; simpl; [reflexivity | now rewrite IH]. Qed.

Lemma append_assoc (s t u : string) : (s ++ t) ++ u = s ++ t ++ u.
Proof. induction s as [| c s IH]; simpl; [reflexivity | now rewrite IH]. Qed.

Lemma fold_left_push {A B : Type} (f : B -> A) (l : list B) (acc : list A) :
  fold_left (fun acc x => (acc ++ [f x])%list) l acc = (acc ++ map f l)%list.
Proof.
  revert acc. induction l as [| x l IH]; intros acc; simpl.
  - now rewrite app_nil_r.
  - rewrite IH, <- app_assoc. reflexivity.
Qed.

Lemma fold_left_concat {A : Type} (f : A -> string) (l : list A) (s : string) :
  fold_left (fun s x => s ++ f x) l s = s ++ joined (map f l).
Proof.
  revert s. induction l as [| x l IH]; intros s; simpl.
  - now rewrite append_nil_r.
  - rewrite IH, append_assoc. reflexivity.
Qed.

Lemma andNames_joined (s : string) (agentNames : list (option string)) :
  andNames s agentNames
  = s ++ joined (map (fun name => " and " ++ interpolate name) agentNames).
Proof.
  unfold andNames. destruct agentNames as [| name rest].
  - simpl. now rewrite append_nil_r.
  - change (0 <? length (name :: rest))%nat with true. cbv iota.
    apply (fold_left_concat (fun name => " and " ++ interpolate name)).
Qed.

Lemma joined_filter {A : Type} (keep : A -> bool) (f : A -> string) (l : list A) :
  joined (map f (filter keep l)) = joined (map (fun x => if keep x then f x else "") l).
Proof.
  induction l as [| x l IH]; simpl; [reflexivity |].
  destruct (keep x); simpl; now rewrite IH.
Qed.

(** ** Extraction *)

Lemma getTranscriptData_map (messages : list Message.t) (users : list User.t) :
  getTranscriptData (Some messages) (Some users) = map (transcriptOf users) messages.
Proof. unfold getTranscriptData. now rewrite fold_left_push. Qed.

(** C7. With the message list and the participant list both given,
    extraction yields one entry per message: as many entries as messages,
    and the entry at each position is the one built from the message at
    that position. *)
Theorem getTranscriptData_preserves_order (messages : list Message.t) (users : list User.t) :
  length (getTranscriptData (Some messages) (Some users)) = length messages
  /\ (forall i,
        nth_error (getTranscriptData (Some messages) (Some users)) i
        = option_map (transcriptOf users) (nth_error messages i))
  /\ map Transcript.body (getTranscriptData (Some messages) (Some users))
     = map Message.body messages
  /\ map Transcript.timeStamp (getTranscriptData (Some messages) (Some users))
     = map Message.dateCreated messages.
Proof.
  rewrite getTranscriptData_map. repeat split.
  - apply length_map.
  - intros i. apply nth_error_map.
  - rewrite map_map. reflexivity.
  - rewrite map_map. reflexivity.
Qed.




(** ** The title *)

Lemma title_cons (message : Transcript.t) (rest : list Transcript.t) :
  title (message :: rest)
  = Ok ("Conversation with " ++ interpolate (Transcript.author message)
          ++ joined
               (map (fun name => " and " ++ interpolate name)
                  (filter (isAgent (Transcript.author message))
                     (map Transcript.author (message :: rest))))).
Proof.
  unfold title, getNames, conversationTitle. cbn [first bindR customerName agentNames].
  rewrite andNames_joined, append_assoc. reflexivity.
Qed.

(** The names first met, in a list of present names without repetition,
    are the names of the list. *)
Lemma firstSeen_NoDup (names : list (option string)) :
  forall seen,
    NoDup names ->
    ~ In None names ->
    (forall name, In name seen -> ~ In (Some name) names) ->
    map Some (firstSeen seen names) = names.
Proof.
  induction names as [| [name |] rest IH]; intros seen Hnodup Hpresent Hseen.
  - reflexivity.
  - inversion Hnodup as [| ? ? Hnotin Hrest]; subst.
    cbn [firstSeen].
    assert (Hfresh : existsb (String.eqb name) seen = false).
    { destruct (existsb (String.eqb name) seen) eqn:E; [| reflexivity].
      apply existsb_exists in E. destruct E as [s [Hin Heq]].
      apply String.eqb_eq in Heq. subst s.
      contradiction (Hseen name Hin). left. reflexivity. }
    rewrite Hfresh. cbn [map]. f_equal. apply IH.
    + assumption.
    + intros H. apply Hpresent. right. assumption.
    + intros s [<- | Hin]; [assumption |].
      intros H. apply (Hseen s Hin). right. assumption.
  - contradiction Hpresent. left. reflexivity.
Qed.

(** C1, as stated, fails, in two ways: an agent who wrote two entries is
    named twice, and an absent author is named, as ["undefined"]. *)
Lemma title_differs_from_distinct_agents :
  (title aliceBobBob = Ok "Conversation with Alice and Bob and Bob"
   /\ titlePerDistinctAgent aliceBobBob = "Conversation with Alice and Bob"
   /\ title aliceBobBob <> Ok (titlePerDistinctAgent aliceBobBob))
  /\ (title aliceNobody = Ok "Conversation with Alice and undefined"
      /\ titlePerDistinctAgent aliceNobody = "Conversation with Alice"
      /\ title aliceNobody <> Ok (titlePerDistinctAgent aliceNobody)).
Proof. repeat split; discriminate. Qed.

(** C1, amended. When no agent wrote more than one entry and no agent is
    absent (the agents being the authors that are neither the customer name
    nor ["Concierge"]), the title is ["Conversation with {customer}"], the
    customer being the author of the first entry, followed by
    [" and {agent}"] once per agent name, in the order first met: it is the
    title in the words of the specification. For the authors Alice, Bob,
    Alice it is ["Conversation with Alice and Bob"]. *)
Theorem title_lists_distinct_agents (transcriptData : list Transcript.t)
    (names : Names) :
  getNames transcriptData = Ok names ->
  NoDup (agentNames names) ->
  ~ In None (agentNames names) ->
  title transcriptData
  = Ok ("Conversation with " ++ interpolate (customerName names)
          ++ joined (map (fun agent => " and " ++ agent)
                       (firstSeen [] (agentNames names))))
  /\ map Some (firstSeen [] (agentNames names)) = agentNames names
  /\ title transcriptData = Ok (titlePerDistinctAgent transcriptData)
  /\ title aliceBobAlice = Ok "Conversation with Alice and Bob".
Proof.
  intros Hnames Hnodup Hpresent.
  assert (Hseen : map Some (firstSeen [] (agentNames names)) = agentNames names).
  { apply firstSeen_NoDup; [assumption | assumption | intros name []]. }
  destruct transcriptData as [| message rest]; [discriminate Hnames |].
  assert (Hn : names
               = {| customerName := Transcript.author message;
                    agentNames :=
                      filter (isAgent (Transcript.author message))
                        (map Transcript.author (message :: rest)) |}).
  { unfold getNames in Hnames. cbn [first bindR] in Hnames. congruence. }
  subst names. unfold customerName, agentNames in *.
  set (agents := filter (isAgent (Transcript.author message))
                   (map Transcript.author (message :: rest))) in *.
  assert (E : map (fun name => " and " ++ interpolate name) agents
              = map (fun agent => " and " ++ agent) (firstSeen [] agents)).
  { transitivity (map (fun name => " and " ++ interpolate name)
                    (map Some (firstSeen [] agents))).
    - now rewrite Hseen.
    - rewrite map_map. reflexivity. }
  assert (Htitle :
            title (message :: rest)
            = Ok ("Conversation with " ++ interpolate (Transcript.author message)
                    ++ joined (map (fun agent => " and " ++ agent)
                                 (firstSeen [] agents)))).
  { rewrite title_cons. fold agents. now rewrite E. }
  split; [exact Htitle |]. split; [exact Hseen |]. split; [| reflexivity].
  rewrite Htitle. reflexivity.
Qed.

(** ** Rendering *)

(** The text of a message is produced unless its array of files is present
    and empty. *)
Lemma messageText_Ok (customerName : option string) (message : Transcript.t) :
  Transcript.attachedMedia message <> Some [] ->
  exists text, messageText customerName message = Ok text.
Proof.
  intros H. unfold messageText.
  destruct (Transcript.attachedMedia message) as [[| media rest] |]; simpl; eauto.
  now contradiction H.
Qed.

Lemma messageText_Throw (customerName : option string) (message : Transcript.t) :
  Transcript.attachedMedia message = Some [] ->
  messageText customerName message = Throw noFilename.
Proof. intros H. unfold messageText. rewrite H. reflexivity. Qed.

Lemma messageText_Throw_inv (customerName : option string) (message : Transcript.t)
    (e : string) :
  messageText customerName message = Throw e ->
  Transcript.attachedMedia message = Some [] /\ e = noFilename.
Proof.
  unfold messageText.
  destruct (Transcript.attachedMedia message) as [[| media rest] |]; simpl;
    intros H; try discriminate H.
  injection H as <-. split; reflexivity.
Qed.

Lemma appendMessages_Ok (customerName : option string)
    (transcriptData : list Transcript.t) :
  Forall (fun message => Transcript.attachedMedia message <> Some []) transcriptData ->
  forall transcript,
  exists texts,
    Forall2 (fun message text => messageText customerName message = Ok text)
      transcriptData texts
    /\ appendMessages customerName transcript transcriptData
       = Ok (transcript ++ joined (map (fun text => text ++ LF ++ LF) texts)).
Proof.
  induction 1 as [| message rest Hm _ IH]; intros transcript.
  - exists []. split; [constructor |]. simpl. now rewrite append_nil_r.
  - destruct (messageText_Ok customerName message Hm) as [text Htext].
    destruct (IH (transcript ++ text ++ LF ++ LF)) as [texts [Hall Hrun]].
    exists (text :: texts). split; [now constructor |].
    cbn [appendMessages]. rewrite Htext. cbn [bindR]. rewrite Hrun.
    cbn [map joined fold_right]. rewrite append_assoc. reflexivity.
Qed.

Lemma appendMessages_Throw (customerName : option string)
    (transcriptData : list Transcript.t) (message : Transcript.t) :
  In message transcriptData ->
  Transcript.attachedMedia message = Some [] ->
  forall transcript,
    appendMessages customerName transcript transcriptData = Throw noFilename.
Proof.
  induction transcriptData as [| m rest IH]; intros Hin Hempty transcript.
  - destruct Hin.
  - simpl. destruct (messageText customerName m) as [text | e] eqn:Hm; simpl.
    + destruct Hin as [-> | Hin].
      * rewrite (messageText_Throw customerName message Hempty) in Hm. discriminate Hm.
      * now apply IH.
    + apply messageText_Throw_inv in Hm. destruct Hm as [_ ->]. reflexivity.
Qed.

Lemma appendMessages_Ok_inv (customerName : option string)
    (transcriptData : list Transcript.t) :
  forall transcript result,
    appendMessages customerName transcript transcriptData = Ok result ->
    Forall (fun message => Transcript.attachedMedia message <> Some []) transcriptData.
Proof.
  induction transcriptData as [| m rest IH]; intros transcript result H.
  - constructor.
  - simpl in H. destruct (messageText customerName m) as [text | e] eqn:Hm; simpl in H;
      [| discriminate H].
    constructor; [| now apply IH in H].
    intros Hempty. rewrite (messageText_Throw customerName m Hempty) in Hm.
    discriminate Hm.
Qed.

(** The document: the title, the date, the duration, then the texts of
    the messages, each followed by a blank line. *)
Lemma generateTranscript_cons (message : Transcript.t) (rest : list Transcript.t) :
  Forall (fun message => Transcript.attachedMedia message <> Some []) (message :: rest) ->
  exists heading texts,
    title (message :: rest) = Ok heading
    /\ Forall2
         (fun m text => messageText (Transcript.author message) m = Ok text)
         (message :: rest) texts
    /\ generateTranscript (message :: rest)
       = Ok ((heading ++ LF ++ LF ++ "Date: "
                ++ Date.toLocaleString_long (Transcript.timeStamp message) ++ LF
                ++ "Duration: " ++ generateDuration (message :: rest) ++ LF ++ LF)
               ++ joined (map (fun text => text ++ LF ++ LF) texts)).
Proof.
  intros Hall.
  unfold title, generateTranscript, getNames.
  cbn [first bindR customerName agentNames].
  set (names := {| customerName := _; agentNames := _ |}).
  set (transcript := conversationTitle names ++ _).
  destruct (appendMessages_Ok (Transcript.author message) _ Hall transcript)
    as [texts [Htexts Hrun]].
  exists (conversationTitle names), texts. repeat split; assumption.
Qed.

Lemma generateTranscript_nil :
  generateTranscript []
  = Throw "TypeError: Cannot read properties of undefined (reading 'author')".
Proof. reflexivity. Qed.

Lemma Forall2_nth_error_l {A B : Type} (R : A -> B -> Prop) (l : list A)
    (l' : list B) :
  Forall2 R l l' ->
  forall i a, nth_error l i = Some a -> exists b, nth_error l' i = Some b /\ R a b.
Proof.
  induction 1 as [| x y l l' Hxy _ IH]; intros i a Hi.
  - destruct i; discriminate Hi.
  - destruct i as [| i]; cbn [nth_error] in *.
    + injection Hi as <-. eauto.
    + now apply IH.
Qed.

(** C8. In the document [generateTranscript] returns, the text of an entry
    with at least one attached file ends with the marker that names the
    first file, whatever the other files are: the document is the title,
    the date and the duration followed by one text per entry, each with its
    blank line, and the text at the position of that entry is the bullet,
    the time, the author and the body followed by
    [" (** Attached file {filename of the first file} **)"]. For an entry of
    Alice with the files [a.png] and [b.png], followed by an entry of Bob,
    the document names [a.png] alone. *)
Theorem generateTranscript_marks_first_file (transcriptData : list Transcript.t)
    (transcript : string) (opening : Transcript.t) (i : nat) (message : Transcript.t)
    (media : Media.t) (others : list Media.t) :
  generateTranscript transcriptData = Ok transcript ->
  head transcriptData = Some opening ->
  nth_error transcriptData i = Some message ->
  Transcript.attachedMedia message = Some (media :: others) ->
  (exists heading texts,
     title transcriptData = Ok heading
     /\ length texts = length transcriptData
     /\ transcript
        = (heading ++ LF ++ LF ++ "Date: "
             ++ Date.toLocaleString_long (Transcript.timeStamp opening) ++ LF
             ++ "Duration: " ++ generateDuration transcriptData ++ LF ++ LF)
            ++ joined (map (fun text => text ++ LF ++ LF) texts)
     /\ nth_error texts i
        = Some (((if strict_eqb (Transcript.author message) (Transcript.author opening)
                  then "*" else "+")
                   ++ " " ++ doubleDigit (Date.getHours (Transcript.timeStamp message))
                   ++ ":" ++ doubleDigit (Date.getMinutes (Transcript.timeStamp message))
                   ++ "  " ++ interpolate (Transcript.author message)
                   ++ ": " ++ Transcript.body message)
                  ++ " (** Attached file " ++ Media.filename media ++ " **)"))
  /\ generateTranscript [withTwoFiles; entry "Bob"]
     = Ok ("Conversation with Alice and Bob" ++ LF ++ LF
             ++ "Date: January 1, 2024" ++ LF
             ++ "Duration: " ++ generateDuration [withTwoFiles; entry "Bob"] ++ LF ++ LF
             ++ "* 09:05  Alice: see (** Attached file a.png **)" ++ LF ++ LF
             ++ "+ 09:05  Bob: hi" ++ LF ++ LF).
Proof.
  intros Hrender Hfirst Hnth Hmedia. split.
  - destruct transcriptData as [| m rest]; [discriminate Hfirst |].
    cbn [head] in Hfirst. assert (m = opening) by congruence. subst m.
    assert (Hall : Forall (fun message => Transcript.attachedMedia message <> Some [])
                     (opening :: rest)).
    { unfold generateTranscript, getNames in Hrender.
      cbn [first bindR customerName] in Hrender.
      now apply appendMessages_Ok_inv in Hrender. }
    destruct (generateTranscript_cons _ _ Hall) as [heading [texts [Htitle [Htexts Hrun]]]].
    exists heading, texts.
    split; [assumption |].
    split; [symmetry; apply (Forall2_length Htexts) |].
    split; [congruence |].
    destruct (Forall2_nth_error_l _ _ _ Htexts _ _ Hnth) as [text [Htext Hm]].
    rewrite Htext. unfold messageText in Hm. rewrite Hmedia in Hm.
    cbn [firstFilename bindR] in Hm. congruence.
  - unfold generateTranscript, getNames.
    cbn [first bindR customerName agentNames].
    unfold conversationTitle. rewrite andNames_joined.
    cbn [appendMessages]. unfold messageText. cbn [Transcript.attachedMedia
      withTwoFiles entry firstFilename bindR appendMessages Transcript.author
      Transcript.body Transcript.timeStamp].
    cbn. rewrite !append_assoc. reflexivity.
Qed.

(** C9. Rendering fails with the error of reading [filename] of
    [undefined] as soon as one entry has an array of files that is present
    and empty; it produces a document exactly when the list is not empty
    and no entry has such an array. *)
Theorem generateTranscript_total_iff (transcriptData : list Transcript.t) :
  (forall message,
     In message transcriptData ->
     Transcript.attachedMedia message = Some [] ->
     generateTranscript transcriptData = Throw noFilename)
  /\ ((exists transcript,
         generateTranscript transcriptData = Ok transcript)
      <-> transcriptData <> []
          /\ Forall (fun message => Transcript.attachedMedia message <> Some [])
               transcriptData).
Proof.
  split.
  - intros message Hin Hempty.
    destruct transcriptData as [| m rest]; [destruct Hin |].
    unfold generateTranscript, getNames. cbn [first bindR customerName].
    now apply appendMessages_Throw with (message := message).
  - split.
    + intros [transcript H]. destruct transcriptData as [| m rest].
      * rewrite generateTranscript_nil in H. discriminate H.
      * split; [discriminate |].
        unfold generateTranscript, getNames in H. cbn [first bindR customerName] in H.
        now apply appendMessages_Ok_inv in H.
    + intros [Hne Hall]. destruct transcriptData as [| m rest]; [now contradiction Hne |].
      destruct (generateTranscript_cons _ _ Hall) as [heading [texts [_ [_ H]]]].
      eauto.
Qed.


(** ** Resolution of the media URLs *)

Lemma withLogged_nil (w : World) : withLogged [] w = w.
Proof. destruct w. unfold withLogged. simpl. now rewrite app_nil_r. Qed.

Lemma withLogged_app (l1 l2 : list string) (w : World) :
  withLogged l2 (withLogged l1 w) = withLogged (l1 ++ l2) w.
Proof. unfold withLogged. simpl. now rewrite app_assoc. Qed.

(** For a media object the URL is the temporary one, whatever
    [URL.createObjectURL] would return. *)
Lemma mediaURLOf_Some (media : Media.t) :
  mediaURLOf (Some media)
  = let? url := Media.getContentTemporaryUrl media in
    Ok {| MediaURL.url := url; MediaURL.filename := Media.filename media |}.
Proof. reflexivity. Qed.

(** For an absent value the construction of [file] throws before the
    conditional is reached. *)
Lemma mediaURLOf_None :
  mediaURLOf None
  = Throw "TypeError: Cannot read properties of undefined (reading 'filename')".
Proof. reflexivity. Qed.

Lemma pushMediaURL_Some (mediaURLs : list MediaURL.t) (media : Media.t) (w : World) :
  pushMediaURL mediaURLs (Some media) w
  = (Ok (mediaURLs ++ resolved [media])%list, withLogged (failures [media]) w).
Proof.
  unfold pushMediaURL, try_catch, bind, lift, ret, resolved, failures.
  rewrite mediaURLOf_Some. cbn [flat_map].
  destruct (Media.getContentTemporaryUrl media) as [url | e]; cbn [bindR app].
  - now rewrite withLogged_nil.
  - now rewrite app_nil_r.
Qed.

Lemma resolved_app (l1 l2 : list Media.t) :
  resolved (l1 ++ l2) = (resolved l1 ++ resolved l2)%list.
Proof. apply flat_map_app. Qed.

Lemma failures_app (l1 l2 : list Media.t) :
  failures (l1 ++ l2) = (failures l1 ++ failures l2)%list.
Proof. apply flat_map_app. Qed.

(** The inner loop, over the files of one message. *)
Lemma for_of_media (media : list Media.t) (mediaURLs : list MediaURL.t) (w : World) :
  for_of media (fun mediaURLs m => pushMediaURL mediaURLs (Some m)) mediaURLs w
  = (Ok (mediaURLs ++ resolved media)%list, withLogged (failures media) w).
Proof.
  revert mediaURLs w. induction media as [| m rest IH]; intros mediaURLs w.
  - cbn. now rewrite app_nil_r, withLogged_nil.
  - cbn [for_of]. unfold bind at 1. rewrite pushMediaURL_Some, IH.
    change (m :: rest) with ([m] ++ rest)%list.
    rewrite resolved_app, failures_app, withLogged_app, app_assoc. reflexivity.
Qed.

(** The outer loop, over the messages that have files. *)
Lemma for_of_messages (messages : list Message.t) (mediaURLs : list MediaURL.t)
    (w : World) :
  for_of (filter (fun message => truthy (Message.attachedMedia message)) messages)
    (fun mediaURLs message =>
       for_of (or_empty (Message.attachedMedia message))
         (fun mediaURLs m => pushMediaURL mediaURLs (Some m)) mediaURLs)
    mediaURLs w
  = (Ok (mediaURLs ++ resolved (allMedia (Some messages)))%list,
     withLogged (failures (allMedia (Some messages))) w).
Proof.
  unfold allMedia. cbn [or_empty].
  revert mediaURLs w. induction messages as [| message rest IH]; intros mediaURLs w.
  - cbn. now rewrite app_nil_r, withLogged_nil.
  - cbn [filter flat_map].
    destruct (Message.attachedMedia message) as [media |] eqn:Hmedia;
      cbn [truthy or_empty].
    + cbn [for_of]. unfold bind at 1. rewrite Hmedia. cbn [or_empty].
      rewrite for_of_media, IH.
      rewrite resolved_app, failures_app, withLogged_app, app_assoc. reflexivity.
    + apply IH.
Qed.

(** [getMediaUrls] never throws: it returns the resolved media, in the
    order of the loops, and logs one line per rejected resolution. *)
Lemma getMediaUrls_run (messages : option (list Message.t)) (w : World) :
  getMediaUrls messages w
  = (Ok (resolved (allMedia messages)), withLogged (failures (allMedia messages)) w).
Proof.
  unfold getMediaUrls. destruct messages as [messages |].
  - cbn [option_map or_empty]. apply for_of_messages.
  - cbn. now rewrite withLogged_nil.
Qed.

Lemma resolved_In (media : list Media.t) (mediaURL : MediaURL.t) :
  In mediaURL (resolved media)
  <-> exists m,
        In m media
        /\ Media.getContentTemporaryUrl m = Ok (MediaURL.url mediaURL)
        /\ MediaURL.filename mediaURL = Media.filename m.
Proof.
  unfold resolved. rewrite in_flat_map. split.
  - intros [m [Hin H]]. exists m. split; [assumption |].
    destruct (Media.getContentTemporaryUrl m) as [url | e]; [| destruct H].
    destruct H as [<- | []]. split; reflexivity.
  - intros [m [Hin [Hurl Hname]]]. exists m. split; [assumption |].
    rewrite Hurl. left. destruct mediaURL. simpl in *. now subst.
Qed.


Lemma resolved_none (media : list Media.t) :
  Forall (fun m => succeeds (Media.getContentTemporaryUrl m) = false) media ->
  resolved media = [].
Proof.
  induction 1 as [| m rest Hm _ IH]; [reflexivity |].
  unfold resolved in *. cbn [flat_map]. rewrite IH.
  destruct (Media.getContentTemporaryUrl m); [discriminate Hm | reflexivity].
Qed.

(** ** The download *)

Lemma put_find_same (name : string) (data : Result Blob)
    (files : list (string * Result Blob)) :
  find (fun entry => String.eqb (fst entry) name) (Folder.put name data files)
  = Some (name, data).
Proof.
  induction files as [| [n d] rest IH]; cbn [Folder.put find fst].
  - now rewrite String.eqb_refl.
  - destruct (String.eqb n name) eqn:E; cbn [find fst].
    + now rewrite String.eqb_refl.
    + now rewrite E.
Qed.

Lemma put_find_other (name other : string) (data : Result Blob)
    (files : list (string * Result Blob)) :
  name <> other ->
  find (fun entry => String.eqb (fst entry) other) (Folder.put name data files)
  = find (fun entry => String.eqb (fst entry) other) files.
Proof.
  intros Hne. apply String.eqb_neq in Hne.
  induction files as [| [n d] rest IH]; cbn [Folder.put find fst].
  - now rewrite Hne.
  - destruct (String.eqb n name) eqn:E; cbn [find fst].
    + apply String.eqb_eq in E. subst n. now rewrite Hne.
    + now rewrite IH.
Qed.

Lemma put_names (name : string) (data : Result Blob)
    (files : list (string * Result Blob)) (n : string) :
  In n (map fst (Folder.put name data files)) <-> n = name \/ In n (map fst files).
Proof.
  induction files as [| [n' d] rest IH]; cbn [Folder.put map fst In].
  - split; [intros [H | []]; left; congruence | intros [H | []]; left; congruence].
  - destruct (String.eqb n' name) eqn:E; cbn [map fst In].
    + apply String.eqb_eq in E. subst n'.
      split; [intros [H | H]; [left; congruence | right; right; assumption]
             | intros [H | [H | H]]; [left; congruence | left; assumption | right; assumption]].
    + rewrite IH.
      split; [intros [H | [H | H]]; auto | intros [H | [H | H]]; auto].
Qed.

Lemma put_NoDup (name : string) (data : Result Blob)
    (files : list (string * Result Blob)) :
  NoDup (map fst files) -> NoDup (map fst (Folder.put name data files)).
Proof.
  induction files as [| [n d] rest IH]; cbn [Folder.put map fst]; intros H.
  - constructor; [intros [] | constructor].
  - inversion H as [| ? ? Hnotin Hrest]; subst.
    destruct (String.eqb n name) eqn:E; cbn [map fst].
    + apply String.eqb_eq in E. subst n. now constructor.
    + constructor; [| now apply IH].
      rewrite put_names. intros [Heq | Hin]; [| contradiction].
      apply String.eqb_neq in E. congruence.
Qed.

Lemma put_length (name : string) (data : Result Blob)
    (files : list (string * Result Blob)) :
  length (Folder.put name data files) <= S (length files).
Proof.
  induction files as [| [n d] rest IH]; cbn [Folder.put length]; [lia |].
  destruct (String.eqb n name); cbn [length]; lia.
Qed.

(** The files of the folder once the files of the media URLs are added. *)
Lemma fold_left_file (mediaURLs : list MediaURL.t) (folder : Folder.t) :
  fold_left
    (fun folder mediaURL =>
       Folder.file (MediaURL.filename mediaURL) (blobPromise mediaURL) folder)
    mediaURLs folder
  = {| Folder.name := Folder.name folder;
       Folder.files :=
         fold_left
           (fun files mediaURL =>
              Folder.put (MediaURL.filename mediaURL) (blobPromise mediaURL) files)
           mediaURLs (Folder.files folder) |}.
Proof.
  revert folder. induction mediaURLs as [| mediaURL rest IH]; intros folder.
  - cbn. now destruct folder.
  - cbn [fold_left]. rewrite IH. reflexivity.
Qed.

(** The folder starts with the transcript; each media URL then adds its
    file or replaces the file of the same name. *)
Lemma archive_files (fileName : string) (transcriptBlob : Blob)
    (mediaURLs : list MediaURL.t) :
  archive fileName transcriptBlob mediaURLs
  = {| Folder.name := fileName;
       Folder.files :=
         fold_left
           (fun files mediaURL =>
              Folder.put (MediaURL.filename mediaURL) (blobPromise mediaURL) files)
           mediaURLs [(fileName ++ ".txt", Ok transcriptBlob)] |}.
Proof. unfold archive. rewrite fold_left_file. reflexivity. Qed.

(** A run of the handler whose transcript renders. *)
Lemma handleDownloadTranscript_run (messages : option (list Message.t))
    (users : option (list User.t)) (w : World) (transcript fileName : string) :
  generateTranscript (getTranscriptData messages users) = Ok transcript ->
  fileNameFor (getTranscriptData messages users) = Ok fileName ->
  handleDownloadTranscript messages users w
  = match resolved (allMedia messages) with
    | [] =>
        (Ok tt,
         {| downloadingTranscript := false;
            logged := (logged w ++ failures (allMedia messages))%list;
            blobs := (blobs w ++ [NewBlob [transcript] "text/plain"])%list;
            saved := (saved w ++ [(NewBlob [transcript] "text/plain",
                                   (fileName ++ ".txt")%string)])%list |})
    | mediaURLs =>
        zipAndSave fileName
          (archive fileName (NewBlob [transcript] "text/plain") mediaURLs)
          (rendered transcript messages w)
    end.
Proof.
  intros Htranscript HfileName.
  unfold handleDownloadTranscript, bind, lift, setdownloadingTranscript, new_Blob.
  cbv zeta. rewrite Htranscript, getMediaUrls_run, HfileName.
  destruct (resolved (allMedia messages)) as [| mediaURL rest]; reflexivity.
Qed.

(** A transcript that renders has a file name. *)
Lemma fileNameFor_Ok (transcriptData : list Transcript.t) (transcript : string) :
  generateTranscript transcriptData = Ok transcript ->
  exists fileName, fileNameFor transcriptData = Ok fileName.
Proof.
  destruct transcriptData as [| message rest]; intros H.
  - rewrite generateTranscript_nil in H. discriminate H.
  - unfold fileNameFor, getNames. cbn [first bindR]. eauto.
Qed.

(** Whatever the archive generation does, the chain ends without an error
    of its own: the error is caught and logged. *)
Lemma zipAndSave_returns (fileName : string) (folder : Folder.t) (w : World) :
  exists w', zipAndSave fileName folder w = (Ok tt, w').
Proof.
  unfold zipAndSave. destruct (generateAsync folder) as [blob | e]; eexists; reflexivity.
Qed.



Lemma archive_one_same_name (fileName : string) (transcriptBlob : Blob)
    (mediaURL : MediaURL.t) :
  MediaURL.filename mediaURL = fileName ++ ".txt" ->
  archive fileName transcriptBlob [mediaURL]
  = {| Folder.name := fileName;
       Folder.files := [ (fileName ++ ".txt", blobPromise mediaURL) ] |}.
Proof.
  intros Heq. rewrite archive_files. cbn [fold_left Folder.put].
  rewrite Heq, String.eqb_refl. reflexivity.
Qed.


(** C4. When no media item survives the resolution (there is none, or every
    resolution is rejected), a transcript that renders is saved as the
    plain-text blob itself under the name [{fileName}.txt]: nothing else is
    saved, and no archive is generated. *)
Theorem no_surviving_media_saves_text (messages : option (list Message.t))
    (users : option (list User.t)) (w : World) (transcript fileName : string) :
  generateTranscript (getTranscriptData messages users) = Ok transcript ->
  fileNameFor (getTranscriptData messages users) = Ok fileName ->
  Forall (fun m => succeeds (Media.getContentTemporaryUrl m) = false) (allMedia messages) ->
  handleDownloadTranscript messages users w
  = (Ok tt,
     {| downloadingTranscript := false;
        logged := (logged w ++ failures (allMedia messages))%list;
        blobs := (blobs w ++ [NewBlob [transcript] "text/plain"])%list;
        saved := (saved w ++ [(NewBlob [transcript] "text/plain",
                               (fileName ++ ".txt")%string)])%list |}).
Proof.
  intros Htranscript HfileName Hnone.
  rewrite (handleDownloadTranscript_run _ _ _ _ _ Htranscript HfileName).
  now rewrite (resolved_none _ Hnone).
Qed.

(** C5. With no entry to render, [generateTranscript] throws, and so does
    the handler, before any blob is made and before anything is saved: the
    world is the initial one but for the loading flag, which stays set. *)
Theorem empty_transcript_is_rejected (messages : option (list Message.t))
    (users : option (list User.t)) (w : World) :
  getTranscriptData messages users = [] ->
  generateTranscript []
  = Throw "TypeError: Cannot read properties of undefined (reading 'author')"
  /\ handleDownloadTranscript messages users w
     = (Throw "TypeError: Cannot read properties of undefined (reading 'author')",
        {| downloadingTranscript := true; logged := logged w;
           blobs := blobs w; saved := saved w |}).
Proof.
  intros Hempty. split; [reflexivity |].
  unfold handleDownloadTranscript, bind, lift, setdownloadingTranscript.
  cbv zeta. rewrite Hempty. reflexivity.
Qed.

(** C6. When at least one media item was resolved and the generation of
    the archive fails, the failure is logged and nothing is saved: neither
    an archive nor the text alone. *)
Theorem zip_failure_is_logged_only (messages : option (list Message.t))
    (users : option (list User.t)) (w : World) (transcript fileName e : string) :
  generateTranscript (getTranscriptData messages users) = Ok transcript ->
  fileNameFor (getTranscriptData messages users) = Ok fileName ->
  resolved (allMedia messages) <> [] ->
  generateAsync
    (archive fileName (NewBlob [transcript] "text/plain") (resolved (allMedia messages)))
  = Throw e ->
  handleDownloadTranscript messages users w
  = (Ok tt,
     {| downloadingTranscript := false;
        logged := ((logged w ++ failures (allMedia messages))
                     ++ [("Failed zipping message attachments: " ++ e)%string])%list;
        blobs := (blobs w ++ [NewBlob [transcript] "text/plain"])%list;
        saved := saved w |}).
Proof.
  intros Htranscript HfileName Hsome Hzip.
  rewrite (handleDownloadTranscript_run _ _ _ _ _ Htranscript HfileName).
  destruct (resolved (allMedia messages)) as [| mediaURL rest] eqn:Hresolved;
    [now contradiction Hsome |].
  unfold zipAndSave. rewrite Hzip. reflexivity.
Qed.

(** * Further properties of the component *)

(** ** Strict equality and prefixes *)

Lemma strict_eqb_eq (a b : option string) : strict_eqb a b = true <-> a = b.
Proof.
  destruct a as [x |], b as [y |]; simpl; try (split; congruence).
  rewrite String.eqb_eq. split; congruence.
Qed.

Lemma strict_eqb_refl (a : option string) : strict_eqb a a = true.
Proof. now apply strict_eqb_eq. Qed.

Lemma isAgent_spec (customer name : option string) :
  isAgent customer name = true <-> name <> customer /\ name <> Some "Concierge".
Proof.
  unfold isAgent. rewrite andb_true_iff, !negb_true_iff.
  split; intros [H1 H2]; split.
  - intros E. apply strict_eqb_eq in E. congruence.
  - intros E. apply strict_eqb_eq in E. congruence.
  - destruct (strict_eqb name customer) eqn:E; [| reflexivity].
    apply strict_eqb_eq in E. contradiction.
  - destruct (strict_eqb name (Some "Concierge")) eqn:E; [| reflexivity].
    apply strict_eqb_eq in E. contradiction.
Qed.

Lemma joined_app (l1 l2 : list string) : joined (l1 ++ l2) = joined l1 ++ joined l2.
Proof.
  induction l1 as [| s l1 IH]; cbn [app joined fold_right]; [reflexivity |].
  fold (joined (l1 ++ l2)). fold (joined l1). now rewrite IH, append_assoc.
Qed.

Lemma prefix_append (s t : string) : String.prefix s (s ++ t) = true.
Proof.
  induction s as [| c s IH]; simpl; [now destruct t |].
  destruct (ascii_dec c c) as [_ | H]; [assumption | now contradiction H].
Qed.

(** ** Extraction: the author of an entry *)

Lemma getTranscriptData_nth (messages : list Message.t) (users : list User.t)
    (i : nat) (message : Message.t) :
  nth_error messages i = Some message ->
  nth_error (getTranscriptData (Some messages) (Some users)) i
  = Some (transcriptOf users message).
Proof.
  intros H. rewrite getTranscriptData_map, nth_error_map, H. reflexivity.
Qed.

(** X1. A message written by ["Concierge"] yields an entry with that very
    label as its author, whoever the participants are, also when one of
    them has the identity ["Concierge"] and another friendly name. *)
Theorem concierge_keeps_its_label (messages : list Message.t) (users : list User.t)
    (i : nat) (message : Message.t) :
  nth_error messages i = Some message ->
  Message.author message = "Concierge" ->
  option_map Transcript.author
    (nth_error (getTranscriptData (Some messages) (Some users)) i)
  = Some (Some "Concierge").
Proof.
  intros Hnth Hauthor. rewrite (getTranscriptData_nth _ _ _ _ Hnth).
  unfold transcriptOf. cbn [option_map Transcript.author].
  rewrite Hauthor. reflexivity.
Qed.

(** X2. A message whose author is not ["Concierge"] and is the identity of
    no participant yields an entry whose author is absent. *)
Theorem unknown_author_is_absent (messages : list Message.t) (users : list User.t)
    (i : nat) (message : Message.t) :
  nth_error messages i = Some message ->
  Message.author message <> "Concierge" ->
  (forall user, In user users -> User.identity user <> Message.author message) ->
  option_map Transcript.author
    (nth_error (getTranscriptData (Some messages) (Some users)) i)
  = Some None.
Proof.
  intros Hnth Hauthor Hnone. rewrite (getTranscriptData_nth _ _ _ _ Hnth).
  unfold transcriptOf. cbn [option_map Transcript.author].
  apply String.eqb_neq in Hauthor. rewrite Hauthor.
  unfold currentUser.
  destruct (find _ users) as [user |] eqn:Hfind; [| reflexivity].
  apply find_some in Hfind. destruct Hfind as [Hin Heq].
  apply String.eqb_eq in Heq. now contradiction (Hnone user Hin).
Qed.

(** X3. When several participants have the identity of the author, the
    entry takes the friendly name of the first of them in the list. *)
Theorem first_matching_user_names_the_author (messages : list Message.t)
    (before after : list User.t) (user : User.t) (i : nat) (message : Message.t) :
  nth_error messages i = Some message ->
  Message.author message <> "Concierge" ->
  (forall u, In u before -> User.identity u <> Message.author message) ->
  User.identity user = Message.author message ->
  option_map Transcript.author
    (nth_error
       (getTranscriptData (Some messages) (Some (before ++ user :: after)%list)) i)
  = Some (Some (User.friendlyName user)).
Proof.
  intros Hnth Hauthor Hbefore Huser. rewrite (getTranscriptData_nth _ _ _ _ Hnth).
  unfold transcriptOf. cbn [option_map Transcript.author].
  apply String.eqb_neq in Hauthor. rewrite Hauthor.
  unfold currentUser. do 2 f_equal.
  induction before as [| u before IH]; cbn [app find].
  - apply String.eqb_eq in Huser. rewrite Huser. reflexivity.
  - assert (Hu : (User.identity u =? Message.author message)%string = false).
    { apply String.eqb_neq. apply Hbefore. left. reflexivity. }
    rewrite Hu. apply IH. intros u' Hin. apply Hbefore. right. assumption.
Qed.

(** X4. Extraction of a message list in two parts is the extraction of the
    first part followed by the extraction of the second. *)
Theorem getTranscriptData_app (messages1 messages2 : list Message.t)
    (users : list User.t) :
  getTranscriptData (Some (messages1 ++ messages2)%list) (Some users)
  = (getTranscriptData (Some messages1) (Some users)
       ++ getTranscriptData (Some messages2) (Some users))%list.
Proof. rewrite !getTranscriptData_map. apply map_app. Qed.

(** ** The names *)

Lemma getNames_cons (message : Transcript.t) (rest : list Transcript.t) :
  getNames (message :: rest)
  = Ok {| customerName := Transcript.author message;
          agentNames :=
            filter (isAgent (Transcript.author message))
              (map Transcript.author (message :: rest)) |}.
Proof. reflexivity. Qed.

Lemma isAgent_customer (customer : option string) : isAgent customer customer = false.
Proof. unfold isAgent. now rewrite strict_eqb_refl. Qed.

(** X5. The customer is the author of the first entry; no agent name is
    the customer name or ["Concierge"], and every agent name is the author of
    an entry. *)
Theorem getNames_agents (transcriptData : list Transcript.t) (names : Names) :
  getNames transcriptData = Ok names ->
  option_map Transcript.author (head transcriptData) = Some (customerName names)
  /\ forall name,
       In name (agentNames names)
       <-> (exists message,
              In message transcriptData /\ Transcript.author message = name)
           /\ name <> customerName names
           /\ name <> Some "Concierge".
Proof.
  destruct transcriptData as [| message rest]; [discriminate |].
  rewrite getNames_cons. set (agents := filter _ _).
  intros H. injection H as <-. subst agents.
  unfold customerName, agentNames. split; [reflexivity |].
  intros name. rewrite filter_In, in_map_iff, isAgent_spec.
  split; intros [[m [H1 H2]] H3]; (split; [exists m; split; assumption | assumption]).
Qed.

(** X6. There are fewer agent names than entries: the first entry is the
    customer's and is never counted. *)
Theorem getNames_fewer_agents_than_entries (transcriptData : list Transcript.t)
    (names : Names) :
  getNames transcriptData = Ok names ->
  length (agentNames names) < length transcriptData.
Proof.
  destruct transcriptData as [| message rest]; [discriminate |].
  rewrite getNames_cons. set (agents := filter _ _).
  intros H. injection H as <-. subst agents.
  unfold agentNames. cbn [map filter]. rewrite isAgent_customer. cbn [length].
  apply Nat.lt_succ_r.
  rewrite <- (length_map Transcript.author rest). apply filter_length_le.
Qed.

(** ** The title and the file name *)

(** X7. When every entry is written by the customer or by ["Concierge"],
    the title names the customer alone. *)
Theorem title_without_agents (message : Transcript.t) (rest : list Transcript.t) :
  (forall m, In m rest ->
     Transcript.author m = Transcript.author message
     \/ Transcript.author m = Some "Concierge") ->
  title (message :: rest)
  = Ok ("Conversation with " ++ interpolate (Transcript.author message)).
Proof.
  intros Hall. rewrite title_cons.
  assert (Hnone : filter (isAgent (Transcript.author message))
                    (map Transcript.author (message :: rest)) = []).
  { assert (Hforall : forall name,
              In name (map Transcript.author (message :: rest)) ->
              isAgent (Transcript.author message) name = false).
    { intros name Hin. apply in_map_iff in Hin. destruct Hin as [m [<- Hm]].
      destruct (isAgent (Transcript.author message) (Transcript.author m)) eqn:E;
        [| reflexivity].
      apply isAgent_spec in E. destruct E as [E1 E2].
      destruct Hm as [<- | Hm]; [now contradiction E1 |].
      destruct (Hall m Hm); contradiction. }
    induction (map Transcript.author (message :: rest)) as [| name l IH];
      [reflexivity |].
    cbn [filter]. rewrite (Hforall name (or_introl eq_refl)).
    apply IH. intros n Hn. apply Hforall. right. assumption. }
  rewrite Hnone. cbn [map joined fold_right]. now rewrite append_nil_r.
Qed.

(** X8. One more entry at the end extends the title by [" and {author}"]
    when its author is neither the customer nor ["Concierge"], and leaves the
    title as it is otherwise. *)
Theorem title_snoc (message : Transcript.t) (rest : list Transcript.t)
    (last : Transcript.t) (heading : string) :
  title (message :: rest) = Ok heading ->
  title (message :: rest ++ [last])%list
  = Ok (heading
          ++ (if isAgent (Transcript.author message) (Transcript.author last)
              then " and " ++ interpolate (Transcript.author last)
              else "")).
Proof.
  intros H. rewrite title_cons in H.
  assert (Hheading :
            heading
            = "Conversation with " ++ interpolate (Transcript.author message)
                ++ joined
                     (map (fun name => " and " ++ interpolate name)
                        (filter (isAgent (Transcript.author message))
                           (map Transcript.author (message :: rest)))))
    by congruence.
  clear H. subst heading. rewrite title_cons.
  change (message :: rest ++ [last])%list with ((message :: rest) ++ [last])%list.
  rewrite map_app, filter_app, map_app, joined_app, !append_assoc.
  do 4 f_equal. cbn [map filter].
  destruct (isAgent (Transcript.author message) (Transcript.author last));
    cbn [map joined fold_right]; [apply append_nil_r | reflexivity].
Qed.

(** X9. The title and the file name list the same names: what follows
    ["Conversation with "] in the title is what follows ["chat with "] in the
    name handed to [slugify], before the date. *)
Theorem title_and_fileName_share_names (message : Transcript.t)
    (rest : list Transcript.t) :
  exists people,
    title (message :: rest) = Ok ("Conversation with " ++ people)
    /\ fileNameFor (message :: rest)
       = Ok (toLowerCase
               (slugify
                  ("chat with " ++ people ++ "-"
                     ++ Date.toDateString (Transcript.timeStamp message)))).
Proof.
  eexists. split; [apply title_cons |].
  unfold fileNameFor, getNames. cbn [first bindR customerName agentNames].
  rewrite andNames_joined, !append_assoc. reflexivity.
Qed.

(** ** The text of the messages *)

Lemma doubleDigit_checked :
  forallb
    (fun n =>
       (String.length (doubleDigit n) =? 2)%nat
       && forallb
            (fun m => negb (String.eqb (doubleDigit n) (doubleDigit m)) || (n =? m)%nat)
            (seq 0 100))
    (seq 0 100)
  = true.
Proof. vm_compute. reflexivity. Qed.

(** X10. Below 100, and so for every hour and minute, [doubleDigit] gives
    exactly two characters, and different numbers give different texts. *)
Theorem doubleDigit_two_characters (n m : nat) :
  n < 100 -> m < 100 ->
  String.length (doubleDigit n) = 2
  /\ (doubleDigit n = doubleDigit m -> n = m).
Proof.
  intros Hn Hm.
  pose proof doubleDigit_checked as H. rewrite forallb_forall in H.
  assert (Hin : forall k, k < 100 -> In k (seq 0 100)).
  { intros k Hk. apply in_seq. lia. }
  specialize (H n (Hin n Hn)). apply andb_true_iff in H. destruct H as [Hlen Hinj].
  split.
  - now apply Nat.eqb_eq.
  - intros Heq. rewrite forallb_forall in Hinj. specialize (Hinj m (Hin m Hm)).
    apply orb_true_iff in Hinj. destruct Hinj as [Hne | He].
    + apply negb_true_iff, String.eqb_neq in Hne. contradiction.
    + now apply Nat.eqb_eq.
Qed.

Lemma messageText_bullet (customer : option string) (m : Transcript.t) (text : string) :
  messageText customer m = Ok text ->
  exists rest,
    text = (if strict_eqb (Transcript.author m) customer then "*" else "+")
             ++ " " ++ rest.
Proof.
  unfold messageText. set (bullet := if strict_eqb _ _ then _ else _).
  destruct (Transcript.attachedMedia m) as [[| media others] |];
    cbn [firstFilename bindR]; intros H; try discriminate H;
    match type of H with
    | Ok ?t = Ok _ => assert (E : text = t) by congruence
    end;
    rewrite E; clear E H.
  - rewrite !append_assoc. eexists. reflexivity.
  - eexists. reflexivity.
Qed.

(** X11. The text of an entry starts with ["* "] when its author is the
    customer name, and with ["+ "] otherwise, ["Concierge"] and the agents
    alike. *)
Theorem bullet_marks_the_customer (customer : option string) (m : Transcript.t)
    (text : string) :
  messageText customer m = Ok text ->
  (Transcript.author m = customer -> String.prefix "* " text = true)
  /\ (Transcript.author m <> customer -> String.prefix "+ " text = true).
Proof.
  intros Htext. apply messageText_bullet in Htext. destruct Htext as [tail ->].
  destruct (strict_eqb (Transcript.author m) customer) eqn:E.
  - apply strict_eqb_eq in E. split; [intros _ | intros H; contradiction].
    apply (prefix_append "* " tail).
  - split; [intros H; apply strict_eqb_eq in H; congruence | intros _].
    apply (prefix_append "+ " tail).
Qed.

(** ** The document *)

Lemma appendMessages_Throw_inv (customer : option string)
    (transcriptData : list Transcript.t) :
  forall transcript e,
    appendMessages customer transcript transcriptData = Throw e -> e = noFilename.
Proof.
  induction transcriptData as [| m rest IH]; intros transcript e H.
  - discriminate H.
  - cbn [appendMessages] in H.
    destruct (messageText customer m) as [text | e'] eqn:Hm; cbn [bindR] in H.
    + now apply IH in H.
    + apply messageText_Throw_inv in Hm. destruct Hm as [_ ->]. congruence.
Qed.

Lemma generateTranscript_Ok_inv (transcriptData : list Transcript.t)
    (transcript : string) :
  generateTranscript transcriptData = Ok transcript ->
  transcriptData <> []
  /\ Forall (fun message => Transcript.attachedMedia message <> Some []) transcriptData.
Proof.
  intros H. destruct transcriptData as [| m rest].
  - rewrite generateTranscript_nil in H. discriminate H.
  - split; [discriminate |].
    unfold generateTranscript, getNames in H. cbn [first bindR customerName] in H.
    now apply appendMessages_Ok_inv in H.
Qed.

Lemma generateTranscript_Throw_inv (transcriptData : list Transcript.t) (e : string) :
  generateTranscript transcriptData = Throw e ->
  e = "TypeError: Cannot read properties of undefined (reading 'author')"
  \/ e = noFilename.
Proof.
  intros H. destruct transcriptData as [| m rest].
  - rewrite generateTranscript_nil in H. left. congruence.
  - right. unfold generateTranscript, getNames in H.
    cbn [first bindR customerName] in H.
    now apply appendMessages_Throw_inv in H.
Qed.

(** X12. A document that is produced starts with the title; the date and
    the duration follow, and then one text per entry, in order, each followed
    by a blank line. *)
Theorem generateTranscript_document (transcriptData : list Transcript.t)
    (transcript : string) :
  generateTranscript transcriptData = Ok transcript ->
  exists message heading texts,
    head transcriptData = Some message
    /\ title transcriptData = Ok heading
    /\ length texts = length transcriptData
    /\ Forall2
         (fun m text => messageText (Transcript.author message) m = Ok text)
         transcriptData texts
    /\ transcript
       = (heading ++ LF ++ LF ++ "Date: "
            ++ Date.toLocaleString_long (Transcript.timeStamp message) ++ LF
            ++ "Duration: " ++ generateDuration transcriptData ++ LF ++ LF)
           ++ joined (map (fun text => text ++ LF ++ LF) texts)
    /\ String.prefix heading transcript = true.
Proof.
  intros H. destruct (generateTranscript_Ok_inv _ _ H) as [Hne Hall].
  destruct transcriptData as [| message rest]; [now contradiction Hne |].
  destruct (generateTranscript_cons _ _ Hall) as [heading [texts [Htitle [Htexts Hrun]]]].
  exists message, heading, texts.
  assert (Heq : transcript
                = (heading ++ LF ++ LF ++ "Date: "
                     ++ Date.toLocaleString_long (Transcript.timeStamp message) ++ LF
                     ++ "Duration: " ++ generateDuration (message :: rest) ++ LF ++ LF)
                    ++ joined (map (fun text => text ++ LF ++ LF) texts))
    by congruence.
  repeat split; try assumption.
  - symmetry. apply (Forall2_length Htexts).
  - rewrite Heq, append_assoc. apply prefix_append.
Qed.

(** ** The media URLs *)

Lemma resolved_filenames (media : list Media.t) :
  map MediaURL.filename (resolved media)
  = map Media.filename
      (filter (fun m => succeeds (Media.getContentTemporaryUrl m)) media).
Proof.
  induction media as [| m rest IH]; [reflexivity |].
  change (m :: rest) with ([m] ++ rest)%list.
  rewrite resolved_app, map_app, IH. unfold resolved. cbn [flat_map app filter].
  destruct (Media.getContentTemporaryUrl m); reflexivity.
Qed.

Lemma failures_length (media : list Media.t) :
  length (failures media)
  = length (filter (fun m => negb (succeeds (Media.getContentTemporaryUrl m))) media).
Proof.
  induction media as [| m rest IH]; [reflexivity |].
  change (m :: rest) with ([m] ++ rest)%list.
  rewrite failures_app, length_app, IH. unfold failures. cbn [flat_map app filter].
  destruct (Media.getContentTemporaryUrl m); reflexivity.
Qed.

(** X13. [getMediaUrls] keeps the order of the messages and of their files:
    the filenames it returns are those of the media whose URL was resolved,
    in that order. It logs one line per rejected resolution and leaves the
    loading flag, the blobs and the saved files alone. *)
Theorem getMediaUrls_keeps_order (messages : option (list Message.t)) (w : World) :
  exists mediaURLs w',
    getMediaUrls messages w = (Ok mediaURLs, w')
    /\ map MediaURL.filename mediaURLs
       = map Media.filename
           (filter (fun m => succeeds (Media.getContentTemporaryUrl m))
              (allMedia messages))
    /\ length (logged w')
       = length (logged w)
         + length
             (filter (fun m => negb (succeeds (Media.getContentTemporaryUrl m)))
                (allMedia messages))
    /\ downloadingTranscript w' = downloadingTranscript w
    /\ blobs w' = blobs w
    /\ saved w' = saved w.
Proof.
  exists (resolved (allMedia messages)), (withLogged (failures (allMedia messages)) w).
  split; [apply getMediaUrls_run |]. split; [apply resolved_filenames |].
  split; [| repeat split].
  unfold withLogged. cbn [logged]. now rewrite length_app, failures_length.
Qed.

(** X14. Without messages, or when no message has a file, [getMediaUrls]
    returns no URL and changes nothing. *)
Theorem getMediaUrls_without_media (messages : option (list Message.t)) (w : World) :
  (forall message,
     In message (or_empty messages) ->
     Message.attachedMedia message = None \/ Message.attachedMedia message = Some []) ->
  getMediaUrls messages w = (Ok [], w).
Proof.
  intros Hnone. rewrite getMediaUrls_run.
  assert (Hmedia : allMedia messages = []).
  { unfold allMedia. induction (or_empty messages) as [| message rest IH];
      [reflexivity |].
    cbn [flat_map]. rewrite IH.
    - destruct (Hnone message (or_introl eq_refl)) as [-> | ->]; reflexivity.
    - intros m Hm. apply Hnone. right. assumption. }
  rewrite Hmedia. cbn [resolved failures flat_map]. now rewrite withLogged_nil.
Qed.

(** ** The archive *)

Lemma fold_put_names (mediaURLs : list MediaURL.t)
    (files : list (string * Result Blob)) (n : string) :
  In n (map fst
          (fold_left
             (fun files mediaURL =>
                Folder.put (MediaURL.filename mediaURL) (blobPromise mediaURL) files)
             mediaURLs files))
  <-> In n (map fst files) \/ In n (map MediaURL.filename mediaURLs).
Proof.
  revert files. induction mediaURLs as [| mediaURL rest IH]; intros files.
  - cbn. split; [auto | intros [H | []]; assumption].
  - cbn [fold_left map In]. rewrite IH, put_names.
    split; [intros [[H | H] | H]; auto | intros [H | [H | H]]; auto].
Qed.

Lemma fold_put_NoDup (mediaURLs : list MediaURL.t)
    (files : list (string * Result Blob)) :
  NoDup (map fst files) ->
  NoDup (map fst
           (fold_left
              (fun files mediaURL =>
                 Folder.put (MediaURL.filename mediaURL) (blobPromise mediaURL) files)
              mediaURLs files)).
Proof.
  revert files. induction mediaURLs as [| mediaURL rest IH]; intros files H.
  - exact H.
  - cbn [fold_left]. apply IH. now apply put_NoDup.
Qed.

Lemma fold_put_length (mediaURLs : list MediaURL.t)
    (files : list (string * Result Blob)) :
  length
    (fold_left
       (fun files mediaURL =>
          Folder.put (MediaURL.filename mediaURL) (blobPromise mediaURL) files)
       mediaURLs files)
  <= length files + length mediaURLs.
Proof.
  revert files. induction mediaURLs as [| mediaURL rest IH]; intros files.
  - cbn. lia.
  - cbn [fold_left length]. specialize (IH (Folder.put (MediaURL.filename mediaURL)
                                              (blobPromise mediaURL) files)).
    pose proof (put_length (MediaURL.filename mediaURL) (blobPromise mediaURL) files).
    lia.
Qed.

Lemma fold_put_find_other (mediaURLs : list MediaURL.t)
    (files : list (string * Result Blob)) (name : string) :
  ~ In name (map MediaURL.filename mediaURLs) ->
  find (fun entry => String.eqb (fst entry) name)
    (fold_left
       (fun files mediaURL =>
          Folder.put (MediaURL.filename mediaURL) (blobPromise mediaURL) files)
       mediaURLs files)
  = find (fun entry => String.eqb (fst entry) name) files.
Proof.
  revert files. induction mediaURLs as [| mediaURL rest IH]; intros files Hnotin.
  - reflexivity.
  - cbn [fold_left]. rewrite IH.
    + apply put_find_other. intros Heq. apply Hnotin. left. assumption.
    + intros Hin. apply Hnotin. right. assumption.
Qed.

(** X15. The folder of the archive has the file name as its name and holds
    one file per name: the names are [{fileName}.txt] and the filenames of the
    media URLs, so there are at most 1 + number of media URLs files. The file
    [{fileName}.txt] is the transcript unless a media URL has that filename,
    and under the filename of a media URL the folder holds the promise of the
    last media URL of that name, which replaces what was there, the
    transcript included. *)
Theorem archive_is_keyed_by_name (fileName : string) (transcriptBlob : Blob)
    (mediaURLs : list MediaURL.t) :
  Folder.name (archive fileName transcriptBlob mediaURLs) = fileName
  /\ NoDup (map fst (Folder.files (archive fileName transcriptBlob mediaURLs)))
  /\ (forall name,
        In name (map fst (Folder.files (archive fileName transcriptBlob mediaURLs)))
        <-> name = fileName ++ ".txt" \/ In name (map MediaURL.filename mediaURLs))
  /\ length (Folder.files (archive fileName transcriptBlob mediaURLs))
     <= S (length mediaURLs)
  /\ (~ In (fileName ++ ".txt") (map MediaURL.filename mediaURLs) ->
      Folder.get (fileName ++ ".txt") (archive fileName transcriptBlob mediaURLs)
      = Some (Ok transcriptBlob))
  /\ (forall before mediaURL after,
        mediaURLs = (before ++ mediaURL :: after)%list ->
        ~ In (MediaURL.filename mediaURL) (map MediaURL.filename after) ->
        Folder.get (MediaURL.filename mediaURL)
          (archive fileName transcriptBlob mediaURLs)
        = Some (blobPromise mediaURL)).
Proof.
  rewrite archive_files. unfold Folder.get. cbn [Folder.name Folder.files].
  split; [reflexivity |]. split.
  { apply fold_put_NoDup. cbn. constructor; [intros [] | constructor]. }
  split.
  { intros name. rewrite fold_put_names. cbn [map fst In].
    split; [intros [[H | []] | H]; auto | intros [H | H]; auto]. }
  split.
  { pose proof (fold_put_length mediaURLs [(fileName ++ ".txt", Ok transcriptBlob)]) as H.
    cbn [length] in H. lia. }
  split.
  { intros Hnotin. rewrite (fold_put_find_other _ _ _ Hnotin).
    cbn [find fst]. now rewrite String.eqb_refl. }
  intros before mediaURL after -> Hlast.
  rewrite fold_left_app. cbn [fold_left].
  rewrite (fold_put_find_other _ _ _ Hlast), put_find_same. reflexivity.
Qed.

(** X16. The promise for a media URL is fulfilled exactly when [fetch]
    answers with the status 200 and [response.blob()] is fulfilled, and then
    with that blob. With another status it is rejected with
    [new Error(response.statusText)], which reads ["Error"] for an empty
    status text and ["Error: {statusText}"] otherwise; a rejection of [fetch]
    or of [response.blob()] is the rejection of the promise. *)
Theorem blobPromise_settles (mediaURL : MediaURL.t) :
  (forall blob,
     blobPromise mediaURL = Ok blob
     <-> exists response,
           fetch (MediaURL.url mediaURL) = Ok response
           /\ Response.status response = 200
           /\ Response.blob response = Ok blob)
  /\ (forall e,
        blobPromise mediaURL = Throw e
        <-> fetch (MediaURL.url mediaURL) = Throw e
            \/ exists response,
                 fetch (MediaURL.url mediaURL) = Ok response
                 /\ ((Response.status response = 200
                      /\ Response.blob response = Throw e)
                     \/ (Response.status response <> 200
                         /\ e = if String.eqb (Response.statusText response) ""
                                then "Error"
                                else "Error: " ++ Response.statusText response))).
Proof.
  unfold blobPromise, errorToString.
  destruct (fetch (MediaURL.url mediaURL)) as [response | e0]; cbn [bindR].
  - destruct (Response.status response =? 200)%nat eqn:E.
    + apply Nat.eqb_eq in E. split.
      * intros blob. split.
        -- intros H. exists response. auto.
        -- intros [r [Hr [_ Hb]]]. congruence.
      * intros e. split.
        -- intros H. right. exists response. split; [reflexivity |]. left. auto.
        -- intros [H | [r [Hr [[_ Hb] | [Hs _]]]]]; [discriminate H | congruence |].
           assert (r = response) by congruence. subst r. contradiction.
    + apply Nat.eqb_neq in E. split.
      * intros blob. split; [discriminate |].
        intros [r [Hr [Hs _]]]. assert (r = response) by congruence. subst r.
        contradiction.
      * intros e. split.
        -- intros H. right. exists response. split; [reflexivity |]. right.
           split; [assumption | congruence].
        -- intros [H | [r [Hr [[Hs _] | [_ He]]]]]; [discriminate H | |].
           ++ assert (r = response) by congruence. subst r. contradiction.
           ++ assert (r = response) by congruence. subst r. congruence.
  - split.
    + intros blob. split; [discriminate | intros [r [Hr _]]; discriminate Hr].
    + intros e. split.
      * intros H. left. congruence.
      * intros [H | [r [Hr _]]]; [congruence | discriminate Hr].
Qed.

(** ** The handler *)

Lemma handleDownloadTranscript_Throw (messages : option (list Message.t))
    (users : option (list User.t)) (w : World) (e : string) :
  generateTranscript (getTranscriptData messages users) = Throw e ->
  handleDownloadTranscript messages users w
  = (Throw e,
     {| downloadingTranscript := true; logged := logged w;
        blobs := blobs w; saved := saved w |}).
Proof.
  intros H. unfold handleDownloadTranscript, bind, lift, setdownloadingTranscript.
  cbv zeta. rewrite H. reflexivity.
Qed.

Lemma getTranscriptData_attachedMedia (messages : list Message.t) (users : list User.t) :
  Forall (fun message => Transcript.attachedMedia message <> Some [])
    (getTranscriptData (Some messages) (Some users))
  <-> Forall (fun message => Message.attachedMedia message <> Some []) messages.
Proof. rewrite getTranscriptData_map, Forall_map. reflexivity. Qed.

(** X17. The download goes through exactly when there is a message list
    with at least one message, there is a participant list, and no message
    has an array of files that is present and empty. *)
Theorem handleDownloadTranscript_returns_iff (messages : option (list Message.t))
    (users : option (list User.t)) (w : World) :
  (exists w', handleDownloadTranscript messages users w = (Ok tt, w'))
  <-> exists message rest participants,
        messages = Some (message :: rest)
        /\ users = Some participants
        /\ Forall (fun m => Message.attachedMedia m <> Some []) (message :: rest).
Proof.
  split.
  - intros [w' Hrun].
    destruct (generateTranscript (getTranscriptData messages users))
      as [transcript | e] eqn:Hrender.
    + destruct (generateTranscript_Ok_inv _ _ Hrender) as [Hne Hall].
      destruct messages as [[| message rest] |], users as [participants |];
        try (now contradiction Hne).
      exists message, rest, participants. repeat split.
      now apply getTranscriptData_attachedMedia in Hall.
    + rewrite (handleDownloadTranscript_Throw _ _ _ _ Hrender) in Hrun.
      discriminate Hrun.
  - intros [message [rest [participants [-> [-> Hall]]]]].
    apply (getTranscriptData_attachedMedia _ participants) in Hall.
    assert (Hrender : exists transcript,
              generateTranscript
                (getTranscriptData (Some (message :: rest)) (Some participants))
              = Ok transcript).
    { revert Hall. rewrite getTranscriptData_map. cbn [map]. intros Hall.
      destruct (generateTranscript_cons _ _ Hall) as [heading [texts [_ [_ H]]]].
      eauto. }
    destruct Hrender as [transcript Hrender].
    destruct (fileNameFor_Ok _ _ Hrender) as [fileName HfileName].
    rewrite (handleDownloadTranscript_run _ _ _ _ _ Hrender HfileName).
    destruct (resolved (allMedia (Some (message :: rest)))) as [| mediaURL others].
    + eexists. reflexivity.
    + apply zipAndSave_returns.
Qed.

(** X18. A run that returns has reset the loading flag. A run that throws
    throws one of the two errors of rendering, and leaves the world as it
    found it but for the loading flag, which stays set: nothing is logged,
    no blob is made and nothing is saved. *)
Theorem handleDownloadTranscript_flag (messages : option (list Message.t))
    (users : option (list User.t)) (w w' : World) (result : Result unit) :
  handleDownloadTranscript messages users w = (result, w') ->
  match result with
  | Ok _ => downloadingTranscript w' = false
  | Throw e =>
      (e = "TypeError: Cannot read properties of undefined (reading 'author')"
       \/ e = noFilename)
      /\ w' = {| downloadingTranscript := true; logged := logged w;
                 blobs := blobs w; saved := saved w |}
  end.
Proof.
  destruct (generateTranscript (getTranscriptData messages users))
    as [transcript | e] eqn:Hrender.
  - destruct (fileNameFor_Ok _ _ Hrender) as [fileName HfileName].
    rewrite (handleDownloadTranscript_run _ _ _ _ _ Hrender HfileName).
    destruct (resolved (allMedia messages)) as [| mediaURL others].
    + intros H. injection H as <- <-. reflexivity.
    + unfold zipAndSave, rendered.
      destruct (generateAsync _) as [blob | e]; intros H; injection H as <- <-;
        reflexivity.
  - rewrite (handleDownloadTranscript_Throw _ _ _ _ Hrender).
    intros H. injection H as <- <-. split; [| reflexivity].
    now apply generateTranscript_Throw_inv in Hrender.
Qed.

(** X19. A run saves at most one file, after those already saved, and its
    name is the file name followed by [.txt] or by [.zip]; it makes at most
    one blob. *)
Theorem handleDownloadTranscript_saves_at_most_once
    (messages : option (list Message.t)) (users : option (list User.t))
    (w w' : World) (result : Result unit) :
  handleDownloadTranscript messages users w = (result, w') ->
  (saved w' = saved w
   \/ exists blob fileName,
        fileNameFor (getTranscriptData messages users) = Ok fileName
        /\ (saved w' = (saved w ++ [(blob, (fileName ++ ".txt")%string)])%list
            \/ saved w' = (saved w ++ [(blob, (fileName ++ ".zip")%string)])%list))
  /\ length (blobs w') <= S (length (blobs w)).
Proof.
  destruct (generateTranscript (getTranscriptData messages users))
    as [transcript | e] eqn:Hrender.
  - destruct (fileNameFor_Ok _ _ Hrender) as [fileName HfileName].
    rewrite (handleDownloadTranscript_run _ _ _ _ _ Hrender HfileName).
    destruct (resolved (allMedia messages)) as [| mediaURL others].
    + intros H. injection H as <- <-. cbn [saved blobs]. split.
      * right. exists (NewBlob [transcript] "text/plain"), fileName. auto.
      * rewrite length_app. cbn [length]. lia.
    + unfold zipAndSave, rendered.
      destruct (generateAsync _) as [blob | e]; intros H; injection H as <- <-;
        cbn [saved blobs]; (split; [| rewrite length_app; cbn [length]; lia]).
      * right. exists blob, fileName. auto.
      * left. reflexivity.
  - rewrite (handleDownloadTranscript_Throw _ _ _ _ Hrender).
    intros H. injection H as <- <-. cbn [saved blobs]. split; [left; reflexivity | lia].
Qed.

(** X20. When at least one media URL was resolved and the archive is
    generated, the archive is what is saved, under [{fileName}.zip], and the
    text is not saved beside it. *)
Theorem zip_success_saves_archive (messages : option (list Message.t))
    (users : option (list User.t)) (w : World) (transcript fileName : string)
    (blob : Blob) :
  generateTranscript (getTranscriptData messages users) = Ok transcript ->
  fileNameFor (getTranscriptData messages users) = Ok fileName ->
  resolved (allMedia messages) <> [] ->
  generateAsync
    (archive fileName (NewBlob [transcript] "text/plain") (resolved (allMedia messages)))
  = Ok blob ->
  handleDownloadTranscript messages users w
  = (Ok tt,
     {| downloadingTranscript := false;
        logged := (logged w ++ failures (allMedia messages))%list;
        blobs := (blobs w ++ [NewBlob [transcript] "text/plain"])%list;
        saved := (saved w ++ [(blob, (fileName ++ ".zip")%string)])%list |}).
Proof.
  intros Htranscript HfileName Hsome Hzip.
  rewrite (handleDownloadTranscript_run _ _ _ _ _ Htranscript HfileName).
  destruct (resolved (allMedia messages)) as [| mediaURL rest] eqn:Hresolved;
    [now contradiction Hsome |].
  unfold zipAndSave. rewrite Hzip. reflexivity.
Qed.

End Pipeline.

(** ** The fallback of [getMediaUrls] *)

(** C10. The branch that calls [URL.createObjectURL] is never taken. The
    result of [getMediaUrls] is the same whatever that function returns;
    every URL in it is the temporary URL of a media item of the messages,
    under that item's filename; and the body of the [try] block does not
    reach the branch even for an absent value, since reading its members
    throws first. *)
Theorem object_URL_fallback_unreachable (createObjectURL : File.t -> string)
    (messages : option (list Message.t)) (w : World) :
  getMediaUrls createObjectURL messages w
  = (Ok (resolved (allMedia messages)), withLogged (failures (allMedia messages)) w)
  /\ (forall mediaURL,
        In mediaURL (resolved (allMedia messages)) ->
        exists media,
          In media (allMedia messages)
          /\ Media.getContentTemporaryUrl media = Ok (MediaURL.url mediaURL)
          /\ MediaURL.filename mediaURL = Media.filename media)
  /\ (forall (other : File.t -> string) (media : option Media.t),
        mediaURLOf other media = mediaURLOf createObjectURL media).
Proof.
  split; [apply getMediaUrls_run |]. split.
  - intros mediaURL H. now apply resolved_In.
  - intros other [media |]; reflexivity.
Qed.

(** ** The properties at the sample data *)



Lemma no_surviving_media_saves_text_sample :
  exists transcript,
    handleDownloadTranscript aMinute dashes lower objectURL fetched zipped
      (Some [lostFile]) (Some [alice]) idle
    = (Ok tt,
       {| downloadingTranscript := false;
          logged := ["Failed downloading message attachment: Error: 403"];
          blobs := [NewBlob [transcript] "text/plain"];
          saved := [(NewBlob [transcript] "text/plain", sampleName ++ ".txt")] |}).
Proof.
  eexists.
  rewrite (no_surviving_media_saves_text aMinute dashes lower objectURL fetched zipped
             (Some [lostFile]) (Some [alice]) idle _ sampleName eq_refl eq_refl).
  - reflexivity.
  - repeat constructor.
Defined.

Lemma empty_transcript_is_rejected_sample :
  handleDownloadTranscript aMinute dashes lower objectURL fetched zipped
    (Some [twoFiles]) None idle
  = (Throw "TypeError: Cannot read properties of undefined (reading 'author')",
     {| downloadingTranscript := true; logged := []; blobs := []; saved := [] |}).
Proof.
  apply (empty_transcript_is_rejected aMinute dashes lower objectURL fetched zipped
           (Some [twoFiles]) None idle eq_refl).
Defined.

Lemma zip_failure_is_logged_only_sample :
  exists transcript,
    handleDownloadTranscript aMinute dashes lower objectURL fetched zipBroken
      (Some [twoFiles]) (Some [alice]) idle
    = (Ok tt,
       {| downloadingTranscript := false;
          logged := ["Failed downloading message attachment: Error: 403";
                     "Failed zipping message attachments: Error: out of memory"];
          blobs := [NewBlob [transcript] "text/plain"];
          saved := [] |}).
Proof.
  eexists.
  rewrite (zip_failure_is_logged_only aMinute dashes lower objectURL fetched zipBroken
             (Some [twoFiles]) (Some [alice]) idle _ sampleName "Error: out of memory"
             eq_refl eq_refl).
  - reflexivity.
  - discriminate.
  - reflexivity.
Defined.

Lemma title_lists_distinct_agents_sample :
  title aliceBobAlice
  = Ok ("Conversation with " ++ interpolate (Some "Alice")
          ++ joined (map (fun agent => " and " ++ agent) (firstSeen [] [Some "Bob"])))
  /\ map Some (firstSeen [] [Some "Bob"]) = [Some "Bob"]
  /\ title aliceBobAlice = Ok (titlePerDistinctAgent aliceBobAlice).
Proof.
  destruct (title_lists_distinct_agents aliceBobAlice
              {| customerName := Some "Alice"; agentNames := [Some "Bob"] |} eq_refl)
    as [H1 [H2 [H3 _]]].
  - constructor; [intros [] | constructor].
  - intros [H | []]. discriminate H.
  - split; [exact H1 |]. split; [exact H2 | exact H3].
Defined.

Lemma generateTranscript_marks_first_file_sample :
  exists transcript texts,
    generateTranscript aMinute [withTwoFiles; entry "Bob"] = Ok transcript
    /\ transcript
       = ("Conversation with Alice and Bob" ++ LF ++ LF ++ "Date: January 1, 2024" ++ LF
            ++ "Duration: 1 minute" ++ LF ++ LF)
           ++ joined (map (fun text => text ++ LF ++ LF) texts)
    /\ nth_error texts 0 = Some "* 09:05  Alice: see (** Attached file a.png **)".
Proof.
  eexists.
  destruct (generateTranscript_marks_first_file aMinute [withTwoFiles; entry "Bob"] _
              withTwoFiles 0 withTwoFiles a_png [b_png] eq_refl eq_refl eq_refl eq_refl)
    as [[heading [texts [Htitle [_ [Hdocument Hline]]]]] _].
  assert (Hheading : heading = "Conversation with Alice and Bob")
    by (cbv in Htitle; congruence).
  subst heading. exists texts.
  split; [reflexivity |]. split; [exact Hdocument | exact Hline].
Defined.

Lemma generateTranscript_total_iff_sample :
  generateTranscript aMinute [entry "Alice"; withNoFile] = Throw noFilename.
Proof.
  apply (proj1 (generateTranscript_total_iff aMinute [entry "Alice"; withNoFile])
           withNoFile).
  - right. left. reflexivity.
  - reflexivity.
Defined.


Lemma object_URL_fallback_unreachable_sample :
  getMediaUrls objectURL (Some [twoFiles]) idle
  = (Ok [ {| MediaURL.url := "https://media/a"; MediaURL.filename := "a.png" |} ],
     {| downloadingTranscript := false;
        logged := ["Failed downloading message attachment: Error: 403"];
        blobs := []; saved := [] |}).
Proof.
  rewrite (proj1 (object_URL_fallback_unreachable objectURL (Some [twoFiles]) idle)).
  reflexivity.
Defined.

(** ** The further properties at the sample data *)

Lemma concierge_keeps_its_label_sample :
  option_map Transcript.author
    (nth_error (getTranscriptData (Some [hello; welcome]) (Some [botUser; alice])) 1)
  = Some (Some "Concierge").
Proof.
  exact (concierge_keeps_its_label [hello; welcome] [botUser; alice] 1 welcome
           eq_refl eq_refl).
Defined.

Lemma unknown_author_is_absent_sample :
  option_map Transcript.author
    (nth_error (getTranscriptData (Some [stranger]) (Some [alice])) 0)
  = Some None.
Proof.
  apply (unknown_author_is_absent [stranger] [alice] 0 stranger eq_refl).
  - discriminate.
  - intros user [<- | []]. discriminate.
Defined.

Lemma first_matching_user_names_the_author_sample :
  option_map Transcript.author
    (nth_error (getTranscriptData (Some [hello]) (Some [botUser; alice; alicia])) 0)
  = Some (Some "Alice").
Proof.
  apply (first_matching_user_names_the_author [hello] [botUser] [alicia] alice 0 hello
           eq_refl).
  - discriminate.
  - intros u [<- | []]. discriminate.
  - reflexivity.
Defined.

Lemma getNames_agents_sample :
  option_map Transcript.author (head aliceBobBob) = Some (Some "Alice").
Proof.
  exact (proj1 (getNames_agents aliceBobBob
                  {| customerName := Some "Alice";
                     agentNames := [Some "Bob"; Some "Bob"] |} eq_refl)).
Defined.

Lemma getNames_fewer_agents_than_entries_sample :
  length [Some "Bob"; Some "Bob"] < length aliceBobBob.
Proof.
  exact (getNames_fewer_agents_than_entries aliceBobBob
           {| customerName := Some "Alice";
              agentNames := [Some "Bob"; Some "Bob"] |} eq_refl).
Defined.

Lemma title_without_agents_sample :
  title [entry "Alice"; entry "Concierge"; entry "Alice"]
  = Ok "Conversation with Alice".
Proof.
  apply (title_without_agents (entry "Alice") [entry "Concierge"; entry "Alice"]).
  intros m [<- | [<- | []]]; [right | left]; reflexivity.
Defined.

Lemma title_snoc_sample :
  title [entry "Alice"; entry "Bob"; entry "Carol"]
  = Ok "Conversation with Alice and Bob and Carol".
Proof.
  exact (title_snoc (entry "Alice") [entry "Bob"] (entry "Carol")
           "Conversation with Alice and Bob" eq_refl).
Defined.

Lemma doubleDigit_two_characters_sample :
  String.length (doubleDigit 9) = 2 /\ (doubleDigit 9 = doubleDigit 23 -> 9 = 23).
Proof. apply (doubleDigit_two_characters 9 23); lia. Defined.

Lemma bullet_marks_the_customer_sample :
  String.prefix "+ " "+ 09:05  Alice: see (** Attached file a.png **)" = true.
Proof.
  apply (proj2 (bullet_marks_the_customer (Some "Bob") withTwoFiles
                  "+ 09:05  Alice: see (** Attached file a.png **)" eq_refl)).
  discriminate.
Defined.

Lemma generateTranscript_document_sample :
  exists transcript,
    generateTranscript aMinute aliceBobAlice = Ok transcript
    /\ String.prefix "Conversation with Alice and Bob" transcript = true.
Proof.
  eexists. split; [reflexivity |].
  destruct (generateTranscript_document aMinute aliceBobAlice _ eq_refl)
    as [message [heading [texts [_ [Htitle [_ [_ [_ Hprefix]]]]]]]].
  assert (Hheading : heading = "Conversation with Alice and Bob")
    by (cbv in Htitle; congruence).
  rewrite Hheading in Hprefix. exact Hprefix.
Defined.

Lemma getMediaUrls_without_media_sample :
  getMediaUrls objectURL (Some [hello; welcome]) idle = (Ok [], idle).
Proof.
  apply (getMediaUrls_without_media objectURL (Some [hello; welcome]) idle).
  intros message [<- | [<- | []]]; left; reflexivity.
Defined.

Lemma handleDownloadTranscript_flag_sample :
  downloadingTranscript
    (snd (handleDownloadTranscript aMinute dashes lower objectURL fetched zipped
            (Some [twoFiles]) (Some [alice]) idle))
  = false.
Proof.
  exact (handleDownloadTranscript_flag aMinute dashes lower objectURL fetched zipped
           (Some [twoFiles]) (Some [alice]) idle
           (snd (handleDownloadTranscript aMinute dashes lower objectURL fetched zipped
                   (Some [twoFiles]) (Some [alice]) idle))
           (Ok tt) eq_refl).
Defined.

Lemma handleDownloadTranscript_saves_at_most_once_sample :
  length
    (blobs
       (snd (handleDownloadTranscript aMinute dashes lower objectURL fetched zipBroken
               (Some [twoFiles]) (Some [alice]) idle)))
  <= 1.
Proof.
  exact (proj2
           (handleDownloadTranscript_saves_at_most_once aMinute dashes lower objectURL
              fetched zipBroken (Some [twoFiles]) (Some [alice]) idle
              (snd (handleDownloadTranscript aMinute dashes lower objectURL fetched
                      zipBroken (Some [twoFiles]) (Some [alice]) idle))
              (Ok tt) eq_refl)).
Defined.

Lemma zip_success_saves_archive_sample :
  exists transcript,
    handleDownloadTranscript aMinute dashes lower objectURL fetched zipped
      (Some [twoFiles]) (Some [alice]) idle
    = (Ok tt,
       {| downloadingTranscript := false;
          logged := ["Failed downloading message attachment: Error: 403"];
          blobs := [NewBlob [transcript] "text/plain"];
          saved := [(Content sampleName, sampleName ++ ".zip")] |}).
Proof.
  eexists.
  rewrite (zip_success_saves_archive aMinute dashes lower objectURL fetched zipped
             (Some [twoFiles]) (Some [alice]) idle _ sampleName (Content sampleName)
             eq_refl eq_refl).
  - reflexivity.
  - discriminate.
  - reflexivity.
Defined.
